(** * ZenFlow service worker (sw.js): caching strategies, router, lifecycle

    A shallow embedding of [src/sw.js].  The worker intercepts requests,
    classifies them (the [fetch] listener), serves them through one of two
    strategies ([networkFirstStrategy], [cacheFirstStrategy]) over the
    origin's cache storage, populates stores at [install] and removes the
    stores of earlier versions at [activate].

    Platform objects are modelled as data:
    - a [Cache] is a finite map from the absolute URL of a GET request to
      the response stored for it;
    - the [CacheStorage] ([caches]) is the list of named caches in creation
      order, the order in which [caches.keys()] enumerates them and in which
      [caches.match] searches them;
    - a promise is a state transformer over the [World] that settles either
      fulfilled with a value or rejected with an error;
    - the network is an oracle from URL to the outcome of [fetch].
    Calls to [console.log]/[console.warn] have no effect on any of this and
    are left out. *)

From Stdlib Require Import Ascii.
From stdpp Require Import base strings list gmap fin_maps.


(** ** JavaScript string methods used by the worker *)

Module JsString.

(** [s.startsWith(p)] *)
Definition startsWith (s p : string) : bool := String.prefix p s.

(** [s.includes(p)]: [p] is a prefix of [s] or occurs further right. *)
Fixpoint includes (s p : string) : bool :=
  String.prefix p s ||
  match s with
  | EmptyString => false
  | String _ t => includes t p
  end.

(** [s.endsWith(p)]: some suffix of [s] is [p]. *)
Fixpoint endsWith (s p : string) : bool :=
  String.eqb s p ||
  match s with
  | EmptyString => false
  | String _ t => endsWith t p
  end.

(** ASCII lower case, as used when header names are compared. *)
Definition lower_ascii (a : ascii) : ascii :=
  let n := nat_of_ascii a in
  if (65 <=? n)%nat && (n <=? 90)%nat then ascii_of_nat (n + 32) else a.

Fixpoint lower (s : string) : string :=
  match s with
  | EmptyString => EmptyString
  | String a t => String (lower_ascii a) (lower t)
  end.

(** [s.split(",")] *)
Fixpoint split_commas (s : string) : list string :=
  match s with
  | EmptyString => [EmptyString]
  | String a t =>
      if Ascii.eqb a ","%char then EmptyString :: split_commas t
      else match split_commas t with
           | [] => [String a EmptyString]
           | h :: rest => String a h :: rest
           end
  end.

Definition is_space (a : ascii) : bool :=
  Ascii.eqb a " "%char || Ascii.eqb a (ascii_of_nat 9).

Fixpoint trim_left (s : string) : string :=
  match s with
  | EmptyString => EmptyString
  | String a t => if is_space a then trim_left t else s
  end.

Fixpoint trim_right (s : string) : string :=
  match s with
  | EmptyString => EmptyString
  | String a t =>
      match trim_right t with
      | EmptyString => if is_space a then EmptyString else String a EmptyString
      | t' => String a t'
      end
  end.

(** [s.trim()], for spaces and tabs. *)
Definition trim (s : string) : string := trim_right (trim_left s).

End JsString.

Import JsString.

(** ** Constants (sw.js lines 1-21) *)

Definition CACHE_VERSION : string := "zenflow-v1".
Definition STATIC_ASSETS_CACHE : string := CACHE_VERSION +:+ "-static".
Definition API_CACHE : string := CACHE_VERSION +:+ "-api".
Definition CDN_CACHE : string := CACHE_VERSION +:+ "-cdn".

Definition STATIC_ASSETS : list string :=
  [ "./"; "./index.html"; "./manifest.json"; "./icons/icon-192.svg";
    "./icons/icon-512.svg"; "./icons/icon-maskable.svg" ].

Definition CDN_RESOURCES : list string :=
  [ "https://cdn.tailwindcss.com";
    "https://fonts.googleapis.com/css2?family=Marcellus&family=Quicksand:wght@300;400;500;600;700&display=swap";
    "https://cdn.jsdelivr.net/npm/@mediapipe/tasks-vision@0.10.3/+esm" ].

(** ** Requests and responses *)

(** The fields of [new URL(request.url)] the worker reads. *)
Record URL := mkURL {
  href : string;
  protocol : string;
  hostname : string;
  pathname : string;
  origin : string
}.

Record Request := mkRequest {
  method : string;
  url : URL;
  destination : string
}.

Record Response := mkResponse {
  status : Z;
  statusText : string;
  type : string;
  headers : list (string * string);
  body : string
}.

(** Whether a header list has a header of the given lower-case name;
    header names compare without regard to case. *)
Definition has_header (name : string) (hs : list (string * string)) : bool :=
  existsb (λ h, String.eqb (lower h.1) name) hs.

(** [new Response(body, init)] for a string body: a missing [status] is
    200, a missing [statusText] is empty, a constructed response has type
    "default", and when [init] gives no Content-Type the constructor adds
    the one of a string body. *)
Record ResponseInit := mkInit {
  init_status : option Z;
  init_statusText : option string;
  init_headers : list (string * string)
}.

Definition new_Response (b : string) (init : ResponseInit) : Response :=
  {| status := default 200%Z (init_status init);
     statusText := default "" (init_statusText init);
     type := "default";
     headers :=
       if has_header "content-type" (init_headers init)
       then init_headers init
       else init_headers init ++ [("content-type", "text/plain;charset=UTF-8")];
     body := b |}.

(** [response.clone()]: responses are immutable snapshots here, so the
    duplicate is the response itself. *)
Definition clone (r : Response) : Response := r.

(** [headers.get(name)] *)
Fixpoint headers_get (name : string) (hs : list (string * string)) : option string :=
  match hs with
  | [] => None
  | (k, v) :: rest => if String.eqb k name then Some v else headers_get name rest
  end.

(** The key under which a request is stored and looked up: the strategies
    only see GET requests, so the key is the absolute URL. *)
Definition RequestKey (request : Request) : string := href (url request).

(** *** What a cache refuses to store

    [cache.put] and [cache.addAll] reject with a TypeError, and store
    nothing, when the request is not a GET over http(s), when the response
    has status 206, and when the response has a Vary header that lists
    "*". *)

(** A Vary header (whatever the case of its name) with "*" among its
    comma-separated values. *)
Definition vary_star (r : Response) : bool :=
  existsb (λ h, String.eqb (lower h.1) "vary" &&
                existsb (λ v, String.eqb (trim v) "*") (split_commas h.2))
          (headers r).

Definition put_accepts_response (r : Response) : bool :=
  negb (status r =? 206)%Z && negb (vary_star r).

Definition put_accepts_request (request : Request) : bool :=
  String.eqb (method request) "GET" &&
  (String.eqb (protocol (url request)) "http:" ||
   String.eqb (protocol (url request)) "https:").

(** The same test on the request for a URL given as a string, which stands
    for a GET request. *)
Definition http_url (u : string) : bool :=
  startsWith u "http://" || startsWith u "https://".

(** ** Cache and CacheStorage *)

Abbreviation Cache := (gmap string Response).
Abbreviation CacheStorage := (list (string * gmap string Response)).

Module Caches.

(** [caches.keys()] *)
Definition keys (cs : CacheStorage) : list string := cs.*1.

(** The cache registered under [name], if any. *)
Fixpoint get (name : string) (cs : CacheStorage) : option Cache :=
  match cs with
  | [] => None
  | (n, c) :: rest => if String.eqb n name then Some c else get name rest
  end.

(** [caches.has(name)] *)
Definition has (name : string) (cs : CacheStorage) : bool :=
  bool_decide (is_Some (get name cs)).

(** [caches.open(name)]: creates an empty cache at the end when there is
    none of that name. *)
Definition open (name : string) (cs : CacheStorage) : CacheStorage :=
  if has name cs then cs else cs ++ [(name, ∅)].

(** [caches.delete(name)] *)
Definition delete (name : string) (cs : CacheStorage) : CacheStorage :=
  filter (λ p, p.1 ≠ name) cs.

(** [cache.put(key, response)] on the cache called [name]. *)
Definition put (name key : string) (r : Response) (cs : CacheStorage) : CacheStorage :=
  (λ p, if String.eqb p.1 name then (p.1, <[key := r]> p.2) else p) <$> cs.

(** [caches.match(key)]: the first hit over all caches, in creation
    order; the name of a cache plays no role. *)
Fixpoint match_ (key : string) (cs : CacheStorage) : option Response :=
  match cs with
  | [] => None
  | (_, c) :: rest =>
      match c !! key with
      | Some r => Some r
      | None => match_ key rest
      end
  end.

(** [caches.open(name).then(cache => cache.match(key))]: lookup in the
    named cache only.  The worker never does this; it is the lookup the
    specification describes. *)
Definition match_in (name key : string) (cs : CacheStorage) : option Response :=
  get name cs ≫= (λ c, c !! key).

End Caches.

(** ** The world a handler runs in *)

(** The service-worker states, under the names of the lifecycle
    controller: installing, installed (waiting), activating, activated;
    a worker whose installation is rejected becomes redundant. *)
Inductive Phase := Installing | Waiting | Activating | Active | Redundant.

Global Instance Phase_eq_dec : EqDecision Phase.
Proof. solve_decision. Defined.

(** A cache write started by a handler and not awaited:
    [caches.open(cacheName).then(cache => cache.put(request, clone))]. *)
Record PutTask := mkPut {
  task_cache : string;
  task_request : Request;
  task_response : Response
}.

Definition task_key (t : PutTask) : string := RequestKey (task_request t).

Record World := mkWorld {
  storage : CacheStorage;          (* caches *)
  requested : list string;         (* URLs handed to fetch(), oldest first *)
  background : list PutTask;       (* writes not yet carried out, oldest first *)
  phase : Phase;
  skipWaitingFlag : bool;          (* set by self.skipWaiting() *)
  claimed : bool                   (* set by self.clients.claim() *)
}.

Definition with_storage (f : CacheStorage → CacheStorage) (w : World) : World :=
  mkWorld (f (storage w)) (requested w) (background w) (phase w) (skipWaitingFlag w) (claimed w).

Definition with_phase (p : Phase) (w : World) : World :=
  mkWorld (storage w) (requested w) (background w) p (skipWaitingFlag w) (claimed w).

(** The world after [fetch] was called for [u]. *)
Definition with_request (u : string) (w : World) : World :=
  mkWorld (storage w) (requested w ++ [u]) (background w)
          (phase w) (skipWaitingFlag w) (claimed w).

(** The world after a write was started and left to complete on its own. *)
Definition with_task (t : PutTask) (w : World) : World :=
  mkWorld (storage w) (requested w) (background w ++ [t])
          (phase w) (skipWaitingFlag w) (claimed w).

Definition with_skipWaitingFlag (b : bool) (w : World) : World :=
  mkWorld (storage w) (requested w) (background w) (phase w) b (claimed w).

Definition with_claimed (b : bool) (w : World) : World :=
  mkWorld (storage w) (requested w) (background w) (phase w) (skipWaitingFlag w) b.

(** Carrying out one pending write: open the cache (creating it when it
    does not exist), then put.  When the cache refuses the request or the
    response, the put rejects; nobody handles the rejection, and nothing is
    stored. *)
Definition run_task (t : PutTask) (cs : CacheStorage) : CacheStorage :=
  if put_accepts_request (task_request t) && put_accepts_response (task_response t)
  then Caches.put (task_cache t) (task_key t) (task_response t)
                  (Caches.open (task_cache t) cs)
  else Caches.open (task_cache t) cs.

(** The world once every pending write has completed. *)
Definition settle (w : World) : World :=
  mkWorld (foldl (λ cs t, run_task t cs) (storage w) (background w))
          (requested w) [] (phase w) (skipWaitingFlag w) (claimed w).

(** ** Promises *)

Inductive Settled (A : Type) :=
  | Fulfilled (a : A)
  | Rejected (e : string).
Arguments Fulfilled {A} a.
Arguments Rejected {A} e.

Definition Promise (A : Type) : Type := World → Settled A * World.

Module Promise.

Definition resolve {A} (a : A) : Promise A := λ w, (Fulfilled a, w).

Definition reject {A} (e : string) : Promise A := λ w, (Rejected e, w).

(** [p.then(f)] *)
Definition then_ {A B} (p : Promise A) (f : A → Promise B) : Promise B :=
  λ w, match p w with
       | (Fulfilled a, w') => f a w'
       | (Rejected e, w') => (Rejected e, w')
       end.

(** [p.catch(h)] *)
Definition catch {A} (p : Promise A) (h : string → Promise A) : Promise A :=
  λ w, match p w with
       | (Fulfilled a, w') => (Fulfilled a, w')
       | (Rejected e, w') => h e w'
       end.

(** [Promise.all(ps)]: the members run in list order; the result is
    rejected with the first rejection, after all members have run. *)
Fixpoint all {A} (ps : list (Promise A)) : Promise (list A) :=
  match ps with
  | [] => resolve []
  | p :: rest =>
      λ w, match p w with
           | (Fulfilled a, w') =>
               match all rest w' with
               | (Fulfilled l, w'') => (Fulfilled (a :: l), w'')
               | (Rejected e, w'') => (Rejected e, w'')
               end
           | (Rejected e, w') => (Rejected e, (all rest w').2)
           end
  end.

End Promise.

Notation "x <- p ;; k" := (Promise.then_ p (λ x, k))
  (at level 100, p at next level, right associativity,
   format "'[v' x  <-  p  ;;  '/' k ']'").

(** ** The worker *)

Inductive Strategy := NetworkFirst | CacheFirst.

Record MessageData := mkData { data_type : string }.

Record Reply := mkReply {
  success : bool;
  message : option string;
  error_message : option string
}.

(** A port of the message event ([event.ports]): where a reply goes. *)
Record MessagePort := mkPort { port_id : nat }.

Inductive Event :=
  | EvInstall
  | EvActivate
  | EvFetch (request : Request)
  | EvMessage (data : option MessageData) (ports : list MessagePort).

Section Worker.

(** The outcome of [fetch] for a URL: fulfilled with a response (or, as
    the guards [!response] allow for, with nothing), or rejected. *)
Variable net : string → Settled (option Response).

(** [location.origin], and the directory of the worker script against
    which the relative paths "./..." resolve. *)
Variable location_origin : string.
Variable base : string.

(** Whether a worker of an earlier version still controls clients, which
    is what keeps an installed worker waiting. *)
Variable old_worker_in_use : bool.

Definition resolve_url (u : string) : string :=
  match u with
  | String "."%char (String "/"%char rest) => base +:+ rest
  | _ => u
  end.

(** *** Platform operations as promises *)

Definition fetch (u : string) : Promise (option Response) :=
  λ w, (net u, with_request u w).

Definition caches_keys : Promise (list string) :=
  λ w, (Fulfilled (Caches.keys (storage w)), w).

Definition caches_open (name : string) : Promise string :=
  λ w, (Fulfilled name, with_storage (Caches.open name) w).

Definition caches_delete (name : string) : Promise bool :=
  λ w, (Fulfilled (Caches.has name (storage w)),
        with_storage (Caches.delete name) w).

Definition caches_match (key : string) : Promise (option Response) :=
  λ w, (Fulfilled (Caches.match_ key (storage w)), w).

(** [cache.put(url, response)] for a URL given as a string: rejected, with
    nothing stored, when the cache refuses the URL or the response. *)
Definition cache_put (cache key : string) (r : Response) : Promise unit :=
  λ w, if http_url key && put_accepts_response r
       then (Fulfilled (), with_storage (Caches.put cache key r) w)
       else (Rejected "TypeError", w).

(** The write of one entry of a batch whose requests and responses have
    all been accepted. *)
Definition batch_put (cache key : string) (r : Response) : Promise unit :=
  λ w, (Fulfilled (), with_storage (Caches.put cache key r) w).

(** A promise chain that is started and not returned: the handler goes
    on without it, and it completes later ([settle]). *)
Definition detached_put (cacheName : string) (request : Request) (r : Response)
  : Promise unit :=
  λ w, (Fulfilled (), with_task (mkPut cacheName request r) w).

(** Try Activate: an installed worker starts activating when it asked to
    skip waiting or when no earlier worker is in use. *)
Definition try_activate (w : World) : World :=
  if bool_decide (phase w = Waiting) && (skipWaitingFlag w || negb old_worker_in_use)
  then with_phase Activating w
  else w.

(** [self.skipWaiting()] *)
Definition skipWaiting : Promise unit :=
  λ w, (Fulfilled (), try_activate (with_skipWaitingFlag true w)).

(** [self.clients.claim()] *)
Definition clients_claim : Promise unit :=
  λ w, (Fulfilled (), with_claimed true w).

(** *** Strategies (sw.js lines 142-208) *)

Definition offline_document : Response :=
  new_Response
    "<h1>Offline</h1><p>ZenFlow is currently offline. Please check your connection.</p>"
    (mkInit (Some 503%Z) (Some "Service Unavailable")
            [("Content-Type", "text/html; charset=utf-8")]).

Definition offline_response : Response :=
  new_Response "Service unavailable - offline"
    (mkInit (Some 503%Z) (Some "Service Unavailable") []).

(** The double-quote character, for the attribute values of the SVG. *)
Definition dq : string := String (Ascii.ascii_of_nat 34) EmptyString.

Definition placeholder_svg : string :=
  "<svg xmlns=" +:+ dq +:+ "http://www.w3.org/2000/svg" +:+ dq +:+
  " width=" +:+ dq +:+ "100" +:+ dq +:+ " height=" +:+ dq +:+ "100" +:+ dq +:+
  "><rect fill=" +:+ dq +:+ "#e5e7eb" +:+ dq +:+
  " width=" +:+ dq +:+ "100" +:+ dq +:+ " height=" +:+ dq +:+ "100" +:+ dq +:+
  "/></svg>".

Definition placeholder_image : Response :=
  new_Response placeholder_svg
    (mkInit None None [("Content-Type", "image/svg+xml")]).

(** Network-first strategy: try network, fallback to cache. *)
Definition networkFirstStrategy (request : Request) (cacheName : string)
  : Promise (option Response) :=
  Promise.catch
    (response <- fetch (RequestKey request) ;;
     match response with
     | None => Promise.resolve response
     | Some r =>
         if negb (status r =? 200)%Z || String.eqb (type r) "error"
         then Promise.resolve response
         else
           let responseClone := clone r in
           _ <- detached_put cacheName request responseClone ;;
           Promise.resolve response
     end)
    (λ error,
       cachedResponse <- caches_match (RequestKey request) ;;
       match cachedResponse with
       | Some _ => Promise.resolve cachedResponse
       | None =>
           if String.eqb (destination request) "document"
           then
             indexResponse <- caches_match (resolve_url "./index.html") ;;
             match indexResponse with
             | Some _ => Promise.resolve indexResponse
             | None => Promise.resolve (Some offline_document)
             end
           else Promise.resolve (Some offline_response)
       end).

(** Cache-first strategy: check cache first, fallback to network. *)
Definition cacheFirstStrategy (request : Request) (cacheName : string)
  : Promise (option Response) :=
  cachedResponse <- caches_match (RequestKey request) ;;
  match cachedResponse with
  | Some _ => Promise.resolve cachedResponse
  | None =>
      Promise.catch
        (response <- fetch (RequestKey request) ;;
         match response with
         | None => Promise.resolve response
         | Some r =>
             if negb (status r =? 200)%Z
             then Promise.resolve response
             else
               let responseClone := clone r in
               _ <- detached_put cacheName request responseClone ;;
               Promise.resolve response
         end)
        (λ error,
           if String.eqb (destination request) "image"
           then Promise.resolve (Some placeholder_image)
           else Promise.reject error)
  end.

(** *** Router (the fetch listener, sw.js lines 88-140)

    [None] is the listener returning without [event.respondWith]; a pair
    is the strategy and store of the [respondWith] call reached. *)

Definition is_api (u : URL) : bool :=
  String.eqb (hostname u) "generativelanguage.googleapis.com" ||
  includes (pathname u) "/api/" ||
  includes (hostname u) "api.".

Definition is_cdn (u : URL) : bool :=
  String.eqb (hostname u) "cdn.tailwindcss.com" ||
  String.eqb (hostname u) "fonts.googleapis.com" ||
  String.eqb (hostname u) "cdn.jsdelivr.net" ||
  String.eqb (hostname u) "fonts.gstatic.com".

Definition is_static_asset (request : Request) : bool :=
  String.eqb (destination request) "image" ||
  String.eqb (destination request) "font" ||
  String.eqb (destination request) "style" ||
  String.eqb (destination request) "script" ||
  endsWith (pathname (url request)) ".svg" ||
  endsWith (pathname (url request)) ".png" ||
  endsWith (pathname (url request)) ".jpg" ||
  endsWith (pathname (url request)) ".jpeg" ||
  endsWith (pathname (url request)) ".webp".

Definition is_document (request : Request) : bool :=
  String.eqb (destination request) "document" ||
  endsWith (pathname (url request)) "manifest.json".

Definition route (request : Request) : option (Strategy * string) :=
  if negb (String.eqb (method request) "GET") then None
  else if negb (String.eqb (protocol (url request)) "http:") &&
          negb (String.eqb (protocol (url request)) "https:") then None
  else if is_api (url request) then Some (NetworkFirst, API_CACHE)
  else if is_cdn (url request) then Some (CacheFirst, CDN_CACHE)
  else if String.eqb (origin (url request)) location_origin then
    if is_static_asset request then Some (CacheFirst, STATIC_ASSETS_CACHE)
    else if is_document request then Some (NetworkFirst, STATIC_ASSETS_CACHE)
    else Some (NetworkFirst, STATIC_ASSETS_CACHE)
  else Some (NetworkFirst, STATIC_ASSETS_CACHE).

Definition run_strategy (s : Strategy) : Request → string → Promise (option Response) :=
  match s with
  | NetworkFirst => networkFirstStrategy
  | CacheFirst => cacheFirstStrategy
  end.

Definition fetch_handler (request : Request) : option (Promise (option Response)) :=
  match route request with
  | None => None
  | Some (s, cacheName) => Some (run_strategy s request cacheName)
  end.

(** *** Install (sw.js lines 24-61) *)

(** [response.ok] *)
Definition response_ok (r : Response) : bool :=
  (200 <=? status r)%Z && (status r <=? 299)%Z.

(** What [cache.addAll] requires of every response: ok, and nothing a
    cache refuses. *)
Definition addAll_accepts (r : Response) : bool :=
  response_ok r && put_accepts_response r.

(** [cache.addAll(urls)]: rejected at once when a URL is not http(s);
    otherwise every URL is fetched, and the responses are stored only when
    every one of them is accepted; if not, the promise rejects and nothing
    is stored. *)
Definition cache_addAll (cache : string) (urls : list string) : Promise unit :=
  if forallb (λ u, http_url (resolve_url u)) urls
  then
    responses <- Promise.all ((λ u, fetch (resolve_url u)) <$> urls) ;;
    if forallb (λ o, from_option addAll_accepts false o) responses
    then
      _ <- Promise.all
             (zip_with (λ u o, from_option (batch_put cache (resolve_url u))
                                           (Promise.resolve ()) o)
                       urls responses) ;;
      Promise.resolve ()
    else Promise.reject "TypeError"
  else Promise.reject "TypeError".

(** The promise handed to [event.waitUntil] by the install listener.
    The two members of the outer [Promise.all] run one after the other
    here; they write to different stores. *)
Definition install_handler : Promise unit :=
  _ <- Promise.all
         [ (cache <- caches_open STATIC_ASSETS_CACHE ;;
            Promise.catch (cache_addAll cache STATIC_ASSETS)
                          (λ err, Promise.resolve ()));
           (cache <- caches_open CDN_CACHE ;;
            _ <- Promise.all
                   ((λ url,
                       Promise.catch
                         (response <- fetch url ;;
                          match response with
                          | Some r =>
                              if response_ok r then cache_put cache url r
                              else Promise.resolve ()
                          | None => Promise.reject "TypeError"
                          end)
                         (λ err, Promise.resolve ()))
                      <$> CDN_RESOURCES) ;;
            Promise.resolve ()) ] ;;
  skipWaiting.

(** *** Activate (sw.js lines 64-85) *)

(** The condition under which the activate listener deletes a cache. *)
Definition is_stale (cacheName : string) : bool :=
  negb (startsWith cacheName CACHE_VERSION) &&
  (startsWith cacheName "zenflow-" || String.eqb cacheName "default-cache").

(** The callback mapped over the cache names. *)
Definition delete_if_stale (cacheName : string) : Promise (option bool) :=
  if is_stale cacheName
  then deleted <- caches_delete cacheName ;; Promise.resolve (Some deleted)
  else Promise.resolve None.

(** The first stage of the activate listener: enumerate the cache names
    and delete the stale ones. *)
Definition pruneStale : Promise (list (option bool)) :=
  cacheNames <- caches_keys ;;
  Promise.all (delete_if_stale <$> cacheNames).

Definition activate_handler : Promise unit :=
  _ <- pruneStale ;;
  clients_claim.

(** *** Messages (sw.js lines 211-229) *)

(** [event.ports[0].postMessage(reply)]: with no port, [event.ports[0]] is
    undefined and the call throws. *)
Definition post_reply (ports : list MessagePort) (reply : Reply)
  : Promise (option (MessagePort * Reply)) :=
  match ports with
  | port :: _ => Promise.resolve (Some (port, reply))
  | [] => Promise.reject "TypeError"
  end.

(** The message listener, for the data and the ports of the event.  The
    result is the reply posted and the port it went to, if any; the chain
    of the CLEAR_CACHE branch is rejected when posting throws in [.then]
    and again in [.catch]. *)
Definition message_handler (data : option MessageData) (ports : list MessagePort)
  : Promise (option (MessagePort * Reply)) :=
  _ <- match data with
       | Some d =>
           if String.eqb (data_type d) "SKIP_WAITING" then skipWaiting
           else Promise.resolve ()
       | None => Promise.resolve ()
       end ;;
  match data with
  | Some d =>
      if String.eqb (data_type d) "CLEAR_CACHE"
      then
        Promise.catch
          (cacheNames <- caches_keys ;;
           _ <- Promise.all (caches_delete <$> cacheNames) ;;
           post_reply ports (mkReply true (Some "Caches cleared") None))
          (λ err, post_reply ports (mkReply false None (Some err)))
      else Promise.resolve None
  | None => Promise.resolve None
  end.

(** *** Events and the lifecycle *)

(** The install event: the worker is installed (waiting) once the promise
    of the listener is fulfilled, and Try Activate runs right after. *)
Definition install_event (w : World) : World :=
  match install_handler w with
  | (Fulfilled _, w') => try_activate (with_phase Waiting w')
  | (Rejected _, w') => with_phase Redundant w'
  end.

(** The activate event: the worker is active once the listener is done. *)
Definition activate_event (w : World) : World :=
  with_phase Active (activate_handler w).2.

Definition dispatch (ev : Event) (w : World) : World :=
  match ev with
  | EvInstall =>
      if bool_decide (phase w = Installing) then install_event w else w
  | EvActivate =>
      if bool_decide (phase w = Activating) then activate_event w else w
  | EvFetch request =>
      match fetch_handler request with
      | Some p => (p w).2
      | None => w
      end
  | EvMessage data ports => (message_handler data ports w).2
  end.

Definition run (evs : list Event) (w : World) : World :=
  foldl (λ w ev, dispatch ev w) w evs.

End Worker.

(** The message a client sends to cut the waiting short. *)
Definition SKIP_WAITING : Event := EvMessage (Some (mkData "SKIP_WAITING")) [].

(** A world in the given phase with the given stores and nothing else. *)
Definition world_of (p : Phase) (cs : CacheStorage) : World :=
  mkWorld cs [] [] p false false.

(** The stores created before the one called [name]. *)
Fixpoint before (name : string) (cs : CacheStorage) : CacheStorage :=
  match cs with
  | [] => []
  | (n, c) :: rest => if String.eqb n name then [] else (n, c) :: before name rest
  end.

(** The application's namespace: the prefix every version string of the
    application starts with. *)
Definition in_namespace (name : string) : bool := startsWith name "zenflow-".

(** Deleting the stale ones among [names], one after the other. *)
Definition prune_names (names : list string) (cs : CacheStorage) : CacheStorage :=
  foldl (λ cs n, if is_stale n then Caches.delete n cs else cs) cs names.

(** Sample data for the examples. *)
Definition sample_response (b : string) : Response :=
  mkResponse 200 "OK" "basic" [("Content-Type", "text/plain")] b.

(** A network that is down, and one that answers 404 to everything. *)
Definition net_down : string → Settled (option Response) :=
  λ _, Rejected "TypeError: Failed to fetch".

Definition not_found : Response := mkResponse 404 "Not Found" "basic" [] "missing".

Definition net_404 : string → Settled (option Response) :=
  λ _, Fulfilled (Some not_found).

(** A response that no cache stores: status 200, but "Vary: *". *)
Definition uncacheable : Response :=
  mkResponse 200 "OK" "basic" [("Content-Type", "text/plain"); ("Vary", "*")] "fresh".

Definition net_uncacheable : string → Settled (option Response) :=
  λ _, Fulfilled (Some uncacheable).

Definition net_ok (b : string) : string → Settled (option Response) :=
  λ _, Fulfilled (Some (sample_response b)).

Definition sample_request (path dest : string) : Request :=
  mkRequest "GET"
    (mkURL ("https://zen.example" +:+ path) "https:" "zen.example" path "https://zen.example")
    dest.

(** What decides the lifecycle transitions of a world. *)
Definition lifecycle (w : World) : Phase * bool := (phase w, skipWaitingFlag w).

(** A promise that leaves the lifecycle alone. *)
Definition keeps_lifecycle {A} (p : Promise A) : Prop :=
  ∀ w, lifecycle (p w).2 = lifecycle w.

(** A promise that is always fulfilled. *)
Definition fulfils {A} (p : Promise A) : Prop :=
  ∀ w, ∃ a, (p w).1 = Fulfilled a.

(** *** The stores after installation, in closed form *)

(** Whether a fetch outcome is a response with [response.ok]. *)
Definition outcome_ok (o : Settled (option Response)) : bool :=
  match o with
  | Fulfilled (Some r) => response_ok r
  | _ => false
  end.

(** Whether a fetch outcome is a response that [cache.addAll] accepts. *)
Definition outcome_storable (o : Settled (option Response)) : bool :=
  match o with
  | Fulfilled (Some r) => addAll_accepts r
  | _ => false
  end.

(** Store the outcome of a fetch under [key] when it is an ok response
    and the cache accepts the URL and the response. *)
Definition put_if_ok (cache key : string) (o : Settled (option Response))
    (cs : CacheStorage) : CacheStorage :=
  match o with
  | Fulfilled (Some r) =>
      if response_ok r && (http_url key && put_accepts_response r)
      then Caches.put cache key r cs
      else cs
  | _ => cs
  end.

(** What [cache.addAll(urls)] with its rejection caught does to the stores:
    everything is stored when every URL is http(s) and every fetch gives an
    accepted response, nothing otherwise. *)
Definition addAll_effect (net : string → Settled (option Response)) (base : string)
    (cache : string) (urls : list string) (cs : CacheStorage) : CacheStorage :=
  if forallb (λ u, http_url (resolve_url base u)) urls &&
     forallb (λ u, outcome_storable (net (resolve_url base u))) urls
  then foldl (λ cs u, put_if_ok cache (resolve_url base u) (net (resolve_url base u)) cs)
             cs urls
  else cs.

(** What fetching the resources one by one does: each ok one that the
    cache accepts is stored. *)
Definition each_effect (net : string → Settled (option Response))
    (cache : string) (urls : list string) (cs : CacheStorage) : CacheStorage :=
  foldl (λ cs u, put_if_ok cache u (net u) cs) cs urls.

Definition installed_storage (net : string → Settled (option Response)) (base : string)
    (cs : CacheStorage) : CacheStorage :=
  each_effect net CDN_CACHE CDN_RESOURCES
    (Caches.open CDN_CACHE
       (addAll_effect net base STATIC_ASSETS_CACHE STATIC_ASSETS
          (Caches.open STATIC_ASSETS_CACHE cs))).

(** ** Notification clicks (sw.js lines 280-296) *)

(** A window client: its URL, and whether it has a [focus] method. *)
Record Client := mkClient {
  client_url : string;
  can_focus : bool
}.

(** What the listener does to the user interface. *)
Inductive UiAction :=
  | CloseNotification
  | FocusClient (c : Client)
  | OpenWindow (u : string).

(** The [for] loop over the window clients: the first client whose URL
    contains "./" and that can be focused. *)
Fixpoint first_focusable (clientList : list Client) : option Client :=
  match clientList with
  | [] => None
  | client :: rest =>
      if includes (client_url client) "./" && can_focus client
      then Some client
      else first_focusable rest
  end.

(** The notificationclick listener, for the [action] of the event (empty
    when the notification itself was clicked), the window clients that
    [clients.matchAll] yields and whether [clients.openWindow] exists. *)
Definition notificationclick (action : string) (clientList : list Client)
    (openWindow : bool) : list UiAction :=
  CloseNotification ::
  (if String.eqb action "open" || String.eqb action ""
   then
     match first_focusable clientList with
     | Some client => [FocusClient client]
     | None => if openWindow then [OpenWindow "./"] else []
     end
   else []).

(** * Properties *)

(** ** Strings *)

Lemma eqb_true (a b : string) : String.eqb a b = true ↔ a = b.
Proof. apply String.eqb_eq. Qed.

Lemma eqb_false (a b : string) : String.eqb a b = false ↔ a ≠ b.
Proof. apply String.eqb_neq. Qed.

Lemma prefix_app (p s : string) : String.prefix p (p +:+ s) = true.
Proof.
  induction p as [|a p IH]; simpl.
  - by destruct s.
  - destruct (Ascii.ascii_dec a a); [exact IH | congruence].
Qed.

Lemma startsWith_app (p s : string) : startsWith (p +:+ s) p = true.
Proof. apply prefix_app. Qed.

Example includes_api_segment : includes "/v2/api/users" "/api/" = true.
Proof. reflexivity. Qed.

Example googleapis_is_not_api_dot : includes "fonts.googleapis.com" "api." = false.
Proof. reflexivity. Qed.

Example endsWith_suffix : endsWith "/icons/icon-192.svg" ".svg" = true.
Proof. reflexivity. Qed.

Example endsWith_longer_suffix : endsWith "svg" ".svg" = false.
Proof. reflexivity. Qed.

Example vary_star_plain :
  vary_star (mkResponse 200 "OK" "basic" [("Vary", "*")] "") = true.
Proof. reflexivity. Qed.

Example vary_star_in_a_list :
  vary_star (mkResponse 200 "OK" "basic" [("vary", "Accept-Encoding , *")] "") = true.
Proof. reflexivity. Qed.

Example vary_without_star :
  vary_star (mkResponse 200 "OK" "basic"
               [("Content-Type", "text/css"); ("Vary", "Accept-Encoding, Origin")] "")
  = false.
Proof. reflexivity. Qed.

Example partial_content_is_refused :
  put_accepts_response (mkResponse 206 "Partial Content" "basic" [] "") = false.
Proof. reflexivity. Qed.

Example string_body_gets_a_content_type :
  headers (new_Response "hello" (mkInit None None []))
  = [("content-type", "text/plain;charset=UTF-8")].
Proof. reflexivity. Qed.

Example given_content_type_is_kept :
  headers (new_Response "<p>hi</p>" (mkInit None None [("Content-Type", "text/html")]))
  = [("Content-Type", "text/html")].
Proof. reflexivity. Qed.

Example store_names :
  [STATIC_ASSETS_CACHE; API_CACHE; CDN_CACHE]
  = ["zenflow-v1-static"; "zenflow-v1-api"; "zenflow-v1-cdn"].
Proof. reflexivity. Qed.

(** ** Cache storage *)

Section CachesFacts.

Implicit Types (cs : CacheStorage) (name key : string) (r : Response).

Lemma get_Some_elem cs name c :
  Caches.get name cs = Some c → (name, c) ∈ cs.
Proof.
  induction cs as [|[n c'] cs IH]; simpl; [done|].
  destruct (String.eqb n name) eqn:E.
  - apply eqb_true in E as ->. intros [= ->]. left.
  - intros H. right. by apply IH.
Qed.

Lemma get_is_Some cs name :
  is_Some (Caches.get name cs) ↔ name ∈ Caches.keys cs.
Proof.
  unfold Caches.keys. induction cs as [|[n c] cs IH]; simpl.
  - split; [by intros [? ?] | by intros ?%elem_of_nil].
  - destruct (String.eqb n name) eqn:E.
    + apply eqb_true in E as ->. split; [left | eauto].
    + apply eqb_false in E. rewrite IH. split; [by right|].
      intros [?|?]%elem_of_cons; [congruence | done].
Qed.

Lemma get_None cs name :
  Caches.get name cs = None ↔ name ∉ Caches.keys cs.
Proof. rewrite <- get_is_Some, eq_None_not_Some. done. Qed.

Lemma get_filter (keep : string → bool) cs name :
  Caches.get name (filter (λ p, keep p.1 = true) cs) =
  if keep name then Caches.get name cs else None.
Proof.
  induction cs as [|[n c] cs IH]; simpl.
  - by destruct (keep name).
  - rewrite filter_cons. simpl. destruct (decide (keep n = true)) as [Hk|Hk]; simpl.
    + destruct (String.eqb n name) eqn:E; [|exact IH].
      apply eqb_true in E as ->. by rewrite Hk.
    + rewrite IH. destruct (String.eqb n name) eqn:E; [|done].
      apply eqb_true in E as ->. by destruct (keep name).
Qed.

Lemma get_app cs cs' name :
  Caches.get name (cs ++ cs') =
  match Caches.get name cs with Some c => Some c | None => Caches.get name cs' end.
Proof.
  induction cs as [|[n c] cs IH]; simpl; [done|].
  by destruct (String.eqb n name).
Qed.

Lemma get_open cs name :
  is_Some (Caches.get name (Caches.open name cs)).
Proof.
  unfold Caches.open, Caches.has. case_bool_decide as H; [done|].
  rewrite get_app. destruct (Caches.get name cs); [eauto|].
  simpl. rewrite String.eqb_refl. eauto.
Qed.

Lemma get_put cs name key r :
  Caches.get name (Caches.put name key r cs) = (λ c, <[key := r]> c) <$> Caches.get name cs.
Proof.
  unfold Caches.put. induction cs as [|[n c] cs IH]; simpl; [done|].
  destruct (String.eqb n name) eqn:E; simpl; rewrite E; [done | exact IH].
Qed.

(** A completed write can be read back from the named store. *)
Lemma match_in_run_task cs name (request : Request) r :
  put_accepts_request request = true →
  put_accepts_response r = true →
  Caches.match_in name (RequestKey request) (run_task (mkPut name request r) cs) = Some r.
Proof.
  intros Hq Hr. unfold Caches.match_in, run_task. simpl. rewrite Hq, Hr. simpl.
  unfold task_key. simpl. rewrite get_put.
  destruct (get_open cs name) as [c ->]. simpl. apply lookup_insert_eq.
Qed.

(** Opening a cache, also a new one, changes no entry. *)
Lemma open_keeps_entries cs cache name key :
  Caches.match_in name key (Caches.open cache cs) = Caches.match_in name key cs.
Proof.
  unfold Caches.match_in, Caches.open. destruct (Caches.has cache cs); [done|].
  rewrite get_app. destruct (Caches.get name cs); [done|]. simpl.
  by destruct (String.eqb cache name).
Qed.

(** A write that the cache refuses leaves every entry as it was. *)
Lemma match_in_run_task_refused cs (t : PutTask) name key :
  put_accepts_request (task_request t) && put_accepts_response (task_response t) = false →
  Caches.match_in name key (run_task t cs) = Caches.match_in name key cs.
Proof.
  intros H. unfold run_task. rewrite H. apply open_keeps_entries.
Qed.

(** [caches.match] hits exactly when some store holds the key. *)
Lemma match_is_Some cs key :
  is_Some (Caches.match_ key cs) ↔ ∃ name c, (name, c) ∈ cs ∧ is_Some (c !! key).
Proof.
  induction cs as [|[n c] cs IH]; simpl.
  - split; [by intros [? ?] | by intros (? & ? & ?%elem_of_nil & _)].
  - destruct (c !! key) as [r|] eqn:E.
    + split; [|eauto]. intros _. exists n, c. split; [left | by rewrite E].
    + rewrite IH. split.
      * intros (n' & c' & Hin & Hs). exists n', c'. split; [by right | done].
      * intros (n' & c' & [[= -> ->]|Hin]%elem_of_cons & Hs).
        -- rewrite E in Hs. by destruct Hs.
        -- eauto.
Qed.

Lemma match_None cs key :
  Caches.match_ key cs = None ↔ ∀ name c, (name, c) ∈ cs → c !! key = None.
Proof.
  rewrite eq_None_not_Some, match_is_Some. split.
  - intros H name c Hin. apply eq_None_not_Some. intros Hs. apply H. eauto.
  - intros H (name & c & Hin & Hs). rewrite (H _ _ Hin) in Hs. by destruct Hs.
Qed.

(** The hit is the entry of the first store that holds the key. *)
Lemma match_first cs key r :
  Caches.match_ key cs = Some r ↔
  ∃ pre name c post,
    cs = pre ++ (name, c) :: post ∧
    Forall (λ p, p.2 !! key = None) pre ∧ c !! key = Some r.
Proof.
  induction cs as [|[n c] cs IH]; simpl.
  - split; [done|]. intros (pre & ? & ? & ? & H & _). by destruct pre.
  - destruct (c !! key) as [r'|] eqn:E.
    + split.
      * intros [= ->]. exists [], n, c, cs. by repeat split.
      * intros (pre & n' & c' & post & Hcs & Hpre & Hc).
        destruct pre as [|[n0 c0] pre]; simpl in Hcs.
        -- injection Hcs as -> -> ->. congruence.
        -- injection Hcs as -> -> ->. apply Forall_cons in Hpre as [H0 _].
           simpl in H0. congruence.
    + rewrite IH. split.
      * intros (pre & n' & c' & post & -> & Hpre & Hc).
        exists ((n, c) :: pre), n', c', post. repeat split; [|done].
        by apply Forall_cons.
      * intros (pre & n' & c' & post & Hcs & Hpre & Hc).
        destruct pre as [|[n0 c0] pre]; simpl in Hcs.
        -- injection Hcs as -> -> ->. congruence.
        -- injection Hcs as -> -> ->. apply Forall_cons in Hpre as [_ Hpre].
           by exists pre, n', c', post.
Qed.

(** A store's own entry is the hit unless an earlier store holds the key. *)
Lemma match_before cs name key stored :
  Caches.match_in name key cs = Some stored →
  Caches.match_ key (before name cs) = None →
  Caches.match_ key cs = Some stored.
Proof.
  unfold Caches.match_in. induction cs as [|[n c] cs IH]; simpl; [done|].
  destruct (String.eqb n name) eqn:E; simpl.
  - intros -> _. done.
  - intros Hin. destruct (c !! key); [done|]. by apply IH.
Qed.

Lemma match_in_is_Some_match cs name key :
  is_Some (Caches.match_in name key cs) → is_Some (Caches.match_ key cs).
Proof.
  unfold Caches.match_in. intros [r Hr]. apply bind_Some in Hr as (c & Hg & Hc).
  apply match_is_Some. exists name, c. split; [by apply get_Some_elem | eauto].
Qed.

End CachesFacts.

(** ** Activation: removal of stale stores *)

Lemma with_storage_compose f g w :
  with_storage f (with_storage g w) = with_storage (f ∘ g) w.
Proof. by destruct w. Qed.

Lemma with_storage_id w : with_storage id w = w.
Proof. by destruct w. Qed.

Lemma all_cons {A} (p : Promise A) (ps : list (Promise A)) (w : World) :
  Promise.all (p :: ps) w =
  match p w with
  | (Fulfilled a, w') =>
      match Promise.all ps w' with
      | (Fulfilled l, w'') => (Fulfilled (a :: l), w'')
      | (Rejected e, w'') => (Rejected e, w'')
      end
  | (Rejected e, w') => (Rejected e, (Promise.all ps w').2)
  end.
Proof. reflexivity. Qed.

Lemma delete_if_stale_run (n : string) (w : World) :
  delete_if_stale n w =
  if is_stale n
  then (Fulfilled (Some (Caches.has n (storage w))), with_storage (Caches.delete n) w)
  else (Fulfilled None, w).
Proof. unfold delete_if_stale. by destruct (is_stale n). Qed.

Lemma prune_all_run (names : list string) (w : World) :
  ∃ l, Promise.all (delete_if_stale <$> names) w
       = (Fulfilled l, with_storage (prune_names names) w).
Proof.
  revert w. induction names as [|n names IH]; intros w.
  - exists []. simpl. unfold Promise.resolve. by rewrite <- (with_storage_id w) at 1.
  - rewrite fmap_cons, all_cons, delete_if_stale_run.
    unfold prune_names. simpl foldl.
    destruct (is_stale n) eqn:E.
    + destruct (IH (with_storage (Caches.delete n) w)) as [l ->]. by eexists.
    + destruct (IH w) as [l ->]. by eexists.
Qed.

(** The activate listener's first stage only touches the stores. *)
Lemma pruneStale_world (w : World) :
  (pruneStale w).2 = with_storage (prune_names (Caches.keys (storage w))) w.
Proof.
  destruct (prune_all_run (Caches.keys (storage w)) w) as [l H].
  unfold pruneStale, Promise.then_, caches_keys. by rewrite H.
Qed.

Lemma get_delete (cs : CacheStorage) (n name : string) :
  Caches.get name (Caches.delete n cs) =
  if String.eqb n name then None else Caches.get name cs.
Proof.
  unfold Caches.delete. induction cs as [|[m c] cs IH]; simpl.
  - by destruct (String.eqb n name).
  - rewrite filter_cons. simpl. destruct (decide (m ≠ n)) as [Hne|Heq]; simpl.
    + destruct (String.eqb m name) eqn:E; [|exact IH].
      apply eqb_true in E as ->.
      destruct (String.eqb n name) eqn:E'; [|done].
      apply eqb_true in E'. congruence.
    + apply dec_stable in Heq as ->. rewrite IH. by destruct (String.eqb n name).
Qed.

Lemma get_prune_names (names : list string) (cs : CacheStorage) (name : string) :
  Caches.get name (prune_names names cs) =
  if is_stale name && bool_decide (name ∈ names) then None else Caches.get name cs.
Proof.
  unfold prune_names. revert cs. induction names as [|n names IH]; intros cs; simpl.
  - by rewrite andb_false_r.
  - rewrite IH. destruct (is_stale name) eqn:Hs; simpl.
    + case_bool_decide as Hin.
      * rewrite bool_decide_true; [done | by right].
      * destruct (is_stale n) eqn:Hn.
        -- rewrite get_delete. destruct (String.eqb n name) eqn:E.
           ++ apply eqb_true in E as ->. rewrite bool_decide_true; [done | left].
           ++ apply eqb_false in E. rewrite bool_decide_false; [done|].
              intros [?|?]%elem_of_cons; congruence.
        -- rewrite bool_decide_false; [done|].
           intros [->|?]%elem_of_cons; congruence.
    + destruct (is_stale n) eqn:Hn; [|done].
      rewrite get_delete. destruct (String.eqb n name) eqn:E; [|done].
      apply eqb_true in E. congruence.
Qed.

(** What activation does to the store called [name]. *)
Lemma get_pruneStale (w : World) (name : string) :
  Caches.get name (storage (pruneStale w).2) =
  if is_stale name then None else Caches.get name (storage w).
Proof.
  rewrite pruneStale_world. destruct w as [cs ? ? ? ? ?]; simpl.
  rewrite get_prune_names. destruct (is_stale name); [|done]. simpl.
  case_bool_decide as Hin; [done|]. by apply get_None.
Qed.

(** C1, as amended.  For a store that exists when the worker activates:
    when its name does not begin with the current version string, it is
    deleted if and only if the name begins with "zenflow-" or is the legacy
    name "default-cache", and is otherwise kept with its contents; a store
    named {currentVersion}-{anything} is kept with its contents; and so is
    a store outside the namespace other than "default-cache". *)
Theorem pruneStale_deletes_stale_generations (w : World) (name : string) :
  name ∈ Caches.keys (storage w) →
  let after := storage (pruneStale w).2 in
  (startsWith name CACHE_VERSION = false →
     (name ∉ Caches.keys after ↔ in_namespace name = true ∨ name = "default-cache")
     ∧ (name ∈ Caches.keys after → Caches.get name after = Caches.get name (storage w)))
  ∧ (∀ purpose, name = CACHE_VERSION +:+ "-" +:+ purpose →
       Caches.get name after = Caches.get name (storage w))
  ∧ (in_namespace name = false → name ≠ "default-cache" →
       Caches.get name after = Caches.get name (storage w)).
Proof.
  intros Hin after. subst after. repeat split.
  - rename select (startsWith _ _ = false) into Hv.
    rewrite <- get_None, get_pruneStale. unfold is_stale, in_namespace. rewrite Hv. simpl.
    destruct (startsWith name "zenflow-"); simpl; [eauto|].
    destruct (String.eqb name "default-cache") eqn:E.
    + apply eqb_true in E. eauto.
    + apply get_is_Some in Hin as [c Hc]. congruence.
  - rename select (startsWith _ _ = false) into Hv.
    rewrite <- get_None, get_pruneStale. unfold is_stale, in_namespace. rewrite Hv. simpl.
    intros [->| ->]; [done|]. by rewrite orb_true_r.
  - rewrite <- get_is_Some, get_pruneStale. destruct (is_stale name); [|done].
    by intros [? ?].
  - intros purpose ->. rewrite get_pruneStale. unfold is_stale.
    by rewrite startsWith_app.
  - intros Hns Hne. rewrite get_pruneStale. unfold is_stale.
    unfold in_namespace in Hns. rewrite Hns. apply eqb_false in Hne as ->.
    by rewrite andb_false_r.
Qed.

Lemma pruneStale_deletes_stale_generations_witness :
  let w := world_of Activating
             [("zenflow-v0-static", {["https://zen.example/" := sample_response "old"]});
              ("zenflow-v1-static", {["https://zen.example/" := sample_response "new"]});
              ("workbox-precache", ∅)] in
("zenflow-v0-static" ∉ Caches.keys (storage (pruneStale w).2))
  ∧ Caches.get "zenflow-v1-static" (storage (pruneStale w).2)
    = Some {["https://zen.example/" := sample_response "new"]}
  ∧ Caches.get "workbox-precache" (storage (pruneStale w).2) = Some ∅.
Proof.
  intros w.
  split; [|split].
  - destruct (pruneStale_deletes_stale_generations w "zenflow-v0-static") as [H _].
    + unfold w, world_of, Caches.keys. simpl. left.
    + apply H; [reflexivity | left; reflexivity].
  - destruct (pruneStale_deletes_stale_generations w "zenflow-v1-static") as (_ & H & _).
    + unfold w, world_of, Caches.keys. simpl. right. left.
    + rewrite (H "static"); reflexivity.
  - destruct (pruneStale_deletes_stale_generations w "workbox-precache") as (_ & _ & H).
    + unfold w, world_of, Caches.keys. simpl. right. right. left.
    + rewrite H; [reflexivity | reflexivity | discriminate].
Defined.

(** C1 as stated fails: a store outside the namespace, "default-cache", is
    deleted by activation. *)
Lemma pruneStale_deletes_default_cache :
  let w := world_of Activating
             [("default-cache", {["https://zen.example/" := sample_response "legacy"]})] in
  "default-cache" ∈ Caches.keys (storage w)
  ∧ in_namespace "default-cache" = false
  ∧ Caches.get "default-cache" (storage (pruneStale w).2) = None
  ∧ (Caches.get "default-cache" (storage (pruneStale w).2)
     ≠ Caches.get "default-cache" (storage w)).
Proof.
  simpl. repeat split.
  - left.
  - discriminate.
Qed.

(** ** The strategies, step by step *)

Section StrategyFacts.

Variable net : string → Settled (option Response).
Variable base : string.

Lemma cacheFirst_hit request cacheName w r :
  Caches.match_ (RequestKey request) (storage w) = Some r →
  cacheFirstStrategy net request cacheName w = (Fulfilled (Some r), w).
Proof.
  intros H. unfold cacheFirstStrategy, Promise.then_, caches_match.
  by rewrite H.
Qed.

Lemma cacheFirst_miss request cacheName w :
  Caches.match_ (RequestKey request) (storage w) = None →
  cacheFirstStrategy net request cacheName w =
  let key := RequestKey request in
  match net key with
  | Fulfilled None => (Fulfilled None, with_request key w)
  | Fulfilled (Some r) =>
      if negb (status r =? 200)%Z
      then (Fulfilled (Some r), with_request key w)
      else (Fulfilled (Some r), with_task (mkPut cacheName request r) (with_request key w))
  | Rejected e =>
      if String.eqb (destination request) "image"
      then (Fulfilled (Some placeholder_image), with_request key w)
      else (Rejected e, with_request key w)
  end.
Proof.
  intros H. unfold cacheFirstStrategy, Promise.then_ at 1, caches_match.
  rewrite H. unfold Promise.catch, Promise.then_, fetch. simpl.
  destruct (net (RequestKey request)) as [[r|]|e]; simpl; [|done|].
  - by destruct (negb (status r =? 200)%Z).
  - by destruct (String.eqb (destination request) "image").
Qed.

Lemma networkFirst_run request cacheName w :
  networkFirstStrategy net base request cacheName w =
  let key := RequestKey request in
  match net key with
  | Fulfilled None => (Fulfilled None, with_request key w)
  | Fulfilled (Some r) =>
      if negb (status r =? 200)%Z || String.eqb (type r) "error"
      then (Fulfilled (Some r), with_request key w)
      else (Fulfilled (Some r), with_task (mkPut cacheName request r) (with_request key w))
  | Rejected e =>
      match Caches.match_ key (storage w) with
      | Some c => (Fulfilled (Some c), with_request key w)
      | None =>
          if String.eqb (destination request) "document"
          then
            match Caches.match_ (resolve_url base "./index.html") (storage w) with
            | Some i => (Fulfilled (Some i), with_request key w)
            | None => (Fulfilled (Some offline_document), with_request key w)
            end
          else (Fulfilled (Some offline_response), with_request key w)
      end
  end.
Proof.
  unfold networkFirstStrategy, Promise.catch, Promise.then_, fetch, caches_match.
  simpl. destruct (net (RequestKey request)) as [[r|]|e]; simpl; [|done|].
  - by destruct (negb (status r =? 200)%Z || String.eqb (type r) "error").
  - destruct (Caches.match_ (RequestKey request) (storage w)); [done|].
    destruct (String.eqb (destination request) "document"); [|done].
    unfold resolve_url. by destruct (Caches.match_ _ _).
Qed.

End StrategyFacts.

Lemma settle_with_task (t : PutTask) (w : World) :
  storage (settle (with_task t w)) = run_task t (storage (settle w)).
Proof. unfold settle, with_task. simpl. by rewrite foldl_app. Qed.

(** A name that merely begins with the characters of the current version
    string counts as current for the activate listener: the test is
    [startsWith(CACHE_VERSION)], with no separator after the version. *)
Example version_prefix_is_kept :
  let w := world_of Activating
             [("zenflow-v10-static", ∅); ("zenflow-v2-static", ∅)] in
  Caches.keys (storage (pruneStale w).2) = ["zenflow-v10-static"].
Proof. reflexivity. Qed.

(** ** Which stores a lookup consults *)

(** C2, as amended.  The lookup of both strategies (the first step of
    cache-first, the fallback of network-first after a failed fetch) goes
    through every store of the cache storage in creation order, whatever
    the [cacheName] argument is: when any store, also a differently named
    one, holds the request's key, the lookup is a hit and both strategies
    answer with the entry of the first store that holds the key. *)
Theorem strategies_look_up_every_store
    (net : string → Settled (option Response)) (base : string)
    (request : Request) (cacheName : string) (w : World)
    (name : string) (c : Cache) :
  (name, c) ∈ storage w →
  is_Some (c !! RequestKey request) →
  ∃ r, (∃ pre first c' post,
          storage w = pre ++ (first, c') :: post
          ∧ Forall (λ p, p.2 !! RequestKey request = None) pre
          ∧ c' !! RequestKey request = Some r)
     ∧ cacheFirstStrategy net request cacheName w = (Fulfilled (Some r), w)
     ∧ (∀ e, net (RequestKey request) = Rejected e →
          networkFirstStrategy net base request cacheName w
          = (Fulfilled (Some r), with_request (RequestKey request) w)).
Proof.
  intros Hin Hc.
  destruct (proj2 (match_is_Some (storage w) (RequestKey request))) as [r Hr]; [eauto|].
  exists r. split; [by apply match_first|]. split.
  - by apply cacheFirst_hit.
  - intros e He. rewrite networkFirst_run. simpl. by rewrite He, Hr.
Qed.

Lemma strategies_look_up_every_store_witness :
  let request := sample_request "/app.js" "script" in
  let w := world_of Active
             [(STATIC_ASSETS_CACHE, ∅);
              ("other-app", {[RequestKey request := sample_response "theirs"]})] in
  ∃ r, cacheFirstStrategy net_down request STATIC_ASSETS_CACHE w = (Fulfilled (Some r), w)
     ∧ (∀ e, net_down (RequestKey request) = Rejected e →
          networkFirstStrategy net_down "https://zen.example/" request STATIC_ASSETS_CACHE w
          = (Fulfilled (Some r), with_request (RequestKey request) w)).
Proof.
  intros request w.
  destruct (strategies_look_up_every_store net_down "https://zen.example/" request
              STATIC_ASSETS_CACHE w "other-app"
              {[RequestKey request := sample_response "theirs"]}) as (r & _ & H).
  - right. left.
  - exists (sample_response "theirs"). reflexivity.
  - exists r. exact H.
Defined.

(** C2 as stated fails: an entry held only by a differently named store is
    a hit for both strategies, not a miss. *)
Lemma lookup_hits_differently_named_store :
  let request := sample_request "/app.js" "script" in
  let w := world_of Active
             [(STATIC_ASSETS_CACHE, ∅);
              ("other-app", {[RequestKey request := sample_response "theirs"]})] in
  Caches.match_in STATIC_ASSETS_CACHE (RequestKey request) (storage w) = None
  ∧ cacheFirstStrategy net_down request STATIC_ASSETS_CACHE w
    = (Fulfilled (Some (sample_response "theirs")), w)
  ∧ networkFirstStrategy net_down "https://zen.example/" request STATIC_ASSETS_CACHE w
    = (Fulfilled (Some (sample_response "theirs")), with_request (RequestKey request) w).
Proof. simpl. repeat split. Qed.

(** ** Cache-first: hits *)

(** C4, as amended.  When the target store holds the request's key,
    cache-first performs no network fetch (the world, and with it the list
    of fetched URLs, is unchanged) and returns the response stored under
    that key in the first store, in creation order, that holds it; this is
    the target store's own entry whenever no store created before the
    target holds the key. *)
Theorem cacheFirst_hit_returns_first_stored
    (net : string → Settled (option Response))
    (request : Request) (cacheName : string) (w : World) (stored : Response) :
  Caches.match_in cacheName (RequestKey request) (storage w) = Some stored →
  ∃ r, cacheFirstStrategy net request cacheName w = (Fulfilled (Some r), w)
     ∧ (∃ pre name c post,
          storage w = pre ++ (name, c) :: post
          ∧ Forall (λ p, p.2 !! RequestKey request = None) pre
          ∧ c !! RequestKey request = Some r)
     ∧ (Caches.match_ (RequestKey request) (before cacheName (storage w)) = None →
        r = stored).
Proof.
  intros Hin.
  destruct (match_in_is_Some_match (storage w) cacheName (RequestKey request)) as [r Hr];
    [eauto|].
  exists r. split; [by apply cacheFirst_hit|]. split.
  - by apply match_first.
  - intros Hb. pose proof (match_before _ _ _ _ Hin Hb). congruence.
Qed.

Lemma cacheFirst_hit_returns_first_stored_witness :
  let request := sample_request "/app.js" "script" in
  let w := world_of Active
             [(STATIC_ASSETS_CACHE, {[RequestKey request := sample_response "ours"]});
              ("other-app", {[RequestKey request := sample_response "theirs"]})] in
  cacheFirstStrategy net_down request STATIC_ASSETS_CACHE w
  = (Fulfilled (Some (sample_response "ours")), w).
Proof.
  intros request w.
  destruct (cacheFirst_hit_returns_first_stored net_down request STATIC_ASSETS_CACHE w
              (sample_response "ours")) as (r & Hrun & _ & Hr).
  - reflexivity.
  - rewrite Hrun, Hr; reflexivity.
Defined.

(** C4 as stated fails: with the key both in an earlier store and in the
    target store, the response returned is the earlier store's, not the one
    stored in the target store. *)
Lemma cacheFirst_returns_other_stores_entry :
  let request := sample_request "/app.js" "script" in
  let w := world_of Active
             [("other-app", {[RequestKey request := sample_response "theirs"]});
              (STATIC_ASSETS_CACHE, {[RequestKey request := sample_response "ours"]})] in
  Caches.match_in STATIC_ASSETS_CACHE (RequestKey request) (storage w)
  = Some (sample_response "ours")
  ∧ cacheFirstStrategy net_down request STATIC_ASSETS_CACHE w
    = (Fulfilled (Some (sample_response "theirs")), w)
  ∧ sample_response "theirs" ≠ sample_response "ours".
Proof. simpl. repeat split. discriminate. Qed.

(** C10.  When the lookup of cache-first hits, handling the request changes
    nothing: every store, and the list of writes still to be carried out,
    is the same before and after. *)
Theorem cacheFirst_hit_no_mutation
    (net : string → Settled (option Response))
    (request : Request) (cacheName : string) (w : World) :
  is_Some (Caches.match_ (RequestKey request) (storage w)) →
  (cacheFirstStrategy net request cacheName w).2 = w
  ∧ storage (settle (cacheFirstStrategy net request cacheName w).2) = storage (settle w).
Proof.
  intros [r Hr]. by rewrite (cacheFirst_hit net request cacheName w r Hr).
Qed.

Lemma cacheFirst_hit_no_mutation_witness :
  let request := sample_request "/app.js" "script" in
  let w := world_of Active
             [(STATIC_ASSETS_CACHE, {[RequestKey request := sample_response "ours"]});
              (CDN_CACHE, ∅)] in
  (cacheFirstStrategy (net_ok "fresh") request STATIC_ASSETS_CACHE w).2 = w
  ∧ storage (settle (cacheFirstStrategy (net_ok "fresh") request STATIC_ASSETS_CACHE w).2)
    = storage (settle w).
Proof.
  intros request w.
  apply (cacheFirst_hit_no_mutation (net_ok "fresh") request STATIC_ASSETS_CACHE w).
  exists (sample_response "ours"). reflexivity.
Defined.

(** ** Cache-first: misses *)

(** C3, as amended.  When the lookup of cache-first misses: if the network
    fetch fails, an image request is answered with the placeholder image
    and any other request has the failure propagated; if the fetch
    completes with a status other than 200, that response is returned
    unmodified, whatever the resource type, and nothing is stored. *)
Theorem cacheFirst_miss_outcomes
    (net : string → Settled (option Response))
    (request : Request) (cacheName : string) (w : World) :
  Caches.match_ (RequestKey request) (storage w) = None →
  (∀ e, net (RequestKey request) = Rejected e →
     cacheFirstStrategy net request cacheName w
     = (if String.eqb (destination request) "image"
        then Fulfilled (Some placeholder_image)
        else Rejected e,
        with_request (RequestKey request) w))
  ∧ (∀ r, net (RequestKey request) = Fulfilled (Some r) → status r ≠ 200%Z →
       cacheFirstStrategy net request cacheName w
       = (Fulfilled (Some r), with_request (RequestKey request) w)).
Proof.
  intros Hmiss. split.
  - intros e He. rewrite cacheFirst_miss by done. simpl. rewrite He.
    by destruct (String.eqb (destination request) "image").
  - intros r Hr Hs. rewrite cacheFirst_miss by done. simpl. rewrite Hr.
    apply Z.eqb_neq in Hs. by rewrite Hs.
Qed.

Lemma cacheFirst_miss_outcomes_witness :
  let image := sample_request "/logo.png" "image" in
  let script := sample_request "/app.js" "script" in
  let w := world_of Active [(STATIC_ASSETS_CACHE, ∅)] in
  cacheFirstStrategy net_down image STATIC_ASSETS_CACHE w
  = (Fulfilled (Some placeholder_image), with_request (RequestKey image) w)
  ∧ cacheFirstStrategy net_down script STATIC_ASSETS_CACHE w
    = (Rejected "TypeError: Failed to fetch", with_request (RequestKey script) w)
  ∧ cacheFirstStrategy net_404 script STATIC_ASSETS_CACHE w
    = (Fulfilled (Some not_found), with_request (RequestKey script) w).
Proof.
  intros image script w. split; [|split].
  - destruct (cacheFirst_miss_outcomes net_down image STATIC_ASSETS_CACHE w) as [H _];
      [reflexivity|].
    apply (H "TypeError: Failed to fetch"). reflexivity.
  - destruct (cacheFirst_miss_outcomes net_down script STATIC_ASSETS_CACHE w) as [H _];
      [reflexivity|].
    apply (H "TypeError: Failed to fetch"). reflexivity.
  - destruct (cacheFirst_miss_outcomes net_404 script STATIC_ASSETS_CACHE w) as [_ H];
      [reflexivity|].
    apply (H not_found); [reflexivity | discriminate].
Defined.

(** C3 as stated fails: an image request that misses and whose fetch
    completes with status 404 gets that 404 response, not the placeholder
    image. *)
Lemma cacheFirst_image_404_is_passed_through :
  let image := sample_request "/logo.png" "image" in
  let w := world_of Active [(STATIC_ASSETS_CACHE, ∅)] in
  destination image = "image"
  ∧ Caches.match_ (RequestKey image) (storage w) = None
  ∧ (cacheFirstStrategy net_404 image STATIC_ASSETS_CACHE w).1 = Fulfilled (Some not_found)
  ∧ (cacheFirstStrategy net_404 image STATIC_ASSETS_CACHE w).1
    ≠ Fulfilled (Some placeholder_image).
Proof. simpl. repeat split. discriminate. Qed.

(** C9.  When cache-first synthesizes the placeholder (image request, the
    lookup misses, the fetch fails), the response returned has status 200
    and Content-Type image/svg+xml. *)
Theorem placeholder_image_is_200_svg
    (net : string → Settled (option Response))
    (request : Request) (cacheName : string) (w : World) (e : string) :
  destination request = "image" →
  Caches.match_ (RequestKey request) (storage w) = None →
  net (RequestKey request) = Rejected e →
  ∃ p, (cacheFirstStrategy net request cacheName w).1 = Fulfilled (Some p)
     ∧ p = placeholder_image
     ∧ status p = 200%Z
     ∧ headers_get "Content-Type" (headers p) = Some "image/svg+xml".
Proof.
  intros Hd Hmiss He. exists placeholder_image.
  rewrite cacheFirst_miss by done. simpl. rewrite He, Hd. by repeat split.
Qed.

Lemma placeholder_image_is_200_svg_witness :
  let image := sample_request "/logo.png" "image" in
  let w := world_of Active [(STATIC_ASSETS_CACHE, ∅)] in
  ∃ p, (cacheFirstStrategy net_down image STATIC_ASSETS_CACHE w).1 = Fulfilled (Some p)
     ∧ p = placeholder_image
     ∧ status p = 200%Z
     ∧ headers_get "Content-Type" (headers p) = Some "image/svg+xml".
Proof.
  intros image w.
  apply (placeholder_image_is_200_svg net_down image STATIC_ASSETS_CACHE w
           "TypeError: Failed to fetch"); reflexivity.
Defined.

(** ** Network-first *)

(** C5, as amended.  When the fetch of network-first completes with a
    response, that response is what the caller gets.  If its status is 200
    and its type is not "error", a write to the named store is started:
    when the cache accepts it (a GET request over http(s), as every
    intercepted request is, and a response without "Vary: *"), the named
    store holds, once the write has completed, the fetched response under
    the request's key (so the same body); when the cache refuses it, the
    response is returned all the same and no entry is stored.  If the
    status is not 200 or the type is "error", nothing is stored and no
    write is started. *)
Theorem networkFirst_stores_successful_fetch
    (net : string → Settled (option Response)) (base : string)
    (request : Request) (cacheName : string) (w : World) (r : Response) :
  net (RequestKey request) = Fulfilled (Some r) →
  let out := networkFirstStrategy net base request cacheName w in
  out.1 = Fulfilled (Some r)
  ∧ (status r = 200%Z → type r ≠ "error" →
     put_accepts_request request = true → put_accepts_response r = true →
       ∃ stored,
         Caches.match_in cacheName (RequestKey request) (storage (settle out.2)) = Some stored
         ∧ stored = r ∧ body stored = body r)
  ∧ (status r = 200%Z → type r ≠ "error" →
     put_accepts_request request && put_accepts_response r = false →
       ∀ name key,
         Caches.match_in name key (storage (settle out.2))
         = Caches.match_in name key (storage (settle w)))
  ∧ (status r ≠ 200%Z ∨ type r = "error" →
       out.2 = with_request (RequestKey request) w).
Proof.
  intros Hnet out. subst out. rewrite networkFirst_run. cbv zeta. rewrite Hnet.
  split; [|split; [|split]].
  - by destruct (negb (status r =? 200)%Z || String.eqb (type r) "error").
  - intros Hs Ht Hq Hr. apply Z.eqb_eq in Hs. apply eqb_false in Ht.
    rewrite Hs, Ht. cbn [negb orb fst snd]. exists r. split; [|done].
    rewrite settle_with_task. by apply match_in_run_task.
  - intros Hs Ht Hrefused name key. apply Z.eqb_eq in Hs. apply eqb_false in Ht.
    rewrite Hs, Ht. cbn [negb orb fst snd].
    rewrite settle_with_task. by apply match_in_run_task_refused.
  - intros [Hs|Ht].
    + apply Z.eqb_neq in Hs. by rewrite Hs.
    + apply eqb_true in Ht. rewrite Ht. by rewrite orb_true_r.
Qed.

Lemma networkFirst_stores_successful_fetch_witness :
  let request := sample_request "/api/profile" "" in
  let w := world_of Active [(STATIC_ASSETS_CACHE, ∅)] in
  let out := networkFirstStrategy (net_ok "fresh") "https://zen.example/" request API_CACHE w in
  out.1 = Fulfilled (Some (sample_response "fresh"))
  ∧ Caches.match_in API_CACHE (RequestKey request) (storage (settle out.2))
    = Some (sample_response "fresh")
  ∧ (networkFirstStrategy net_404 "https://zen.example/" request API_CACHE w).2
    = with_request (RequestKey request) w.
Proof.
  intros request w out.
  destruct (networkFirst_stores_successful_fetch (net_ok "fresh") "https://zen.example/"
              request API_CACHE w (sample_response "fresh")) as (H1 & H2 & _);
    [reflexivity|].
  destruct (networkFirst_stores_successful_fetch net_404 "https://zen.example/"
              request API_CACHE w not_found) as (_ & _ & _ & H3);
    [reflexivity|].
  split; [exact H1|]. split.
  - destruct H2 as (stored & Hs & -> & _);
      [reflexivity | discriminate | reflexivity | reflexivity | exact Hs].
  - apply H3. left. discriminate.
Defined.

(** C5 as stated fails: a response with status 200, no transport error and
    the header "Vary: *" is returned to the caller, but the cache refuses
    it, and the named store holds no entry for the request afterwards. *)
Lemma networkFirst_vary_star_is_not_stored :
  let request := sample_request "/api/profile" "" in
  let w := world_of Active [(API_CACHE, ∅)] in
  let out := networkFirstStrategy net_uncacheable "https://zen.example/" request API_CACHE w in
  net_uncacheable (RequestKey request) = Fulfilled (Some uncacheable)
  ∧ status uncacheable = 200%Z
  ∧ type uncacheable ≠ "error"
  ∧ out.1 = Fulfilled (Some uncacheable)
  ∧ Caches.match_in API_CACHE (RequestKey request) (storage (settle out.2)) = None.
Proof. simpl. repeat split. discriminate. Qed.

(** C7, as amended.  For a document request handled by network-first whose
    fetch fails and whose key is held by no store: if some store holds the
    fallback document "./index.html", that document is returned; otherwise
    the answer is a synthesized HTML response with status 503 that says
    the application is offline. *)
Theorem networkFirst_offline_document
    (net : string → Settled (option Response)) (base : string)
    (request : Request) (cacheName : string) (w : World) (e : string) :
  destination request = "document" →
  net (RequestKey request) = Rejected e →
  Caches.match_ (RequestKey request) (storage w) = None →
  let fallback := Caches.match_ (resolve_url base "./index.html") (storage w) in
  let answer := (networkFirstStrategy net base request cacheName w).1 in
  (∀ index, fallback = Some index → answer = Fulfilled (Some index))
  ∧ (fallback = None →
       answer = Fulfilled (Some offline_document)
       ∧ status offline_document = 503%Z
       ∧ headers_get "Content-Type" (headers offline_document)
         = Some "text/html; charset=utf-8"
       ∧ includes (body offline_document) "offline" = true).
Proof.
  intros Hd He Hmiss fallback answer. subst fallback answer.
  rewrite networkFirst_run. simpl. rewrite He, Hmiss, Hd. simpl. split.
  - intros index Hi. unfold resolve_url in Hi. by rewrite Hi.
  - intros Hn. unfold resolve_url in Hn. rewrite Hn. by repeat split.
Qed.

Lemma networkFirst_offline_document_witness :
  let page := sample_request "/" "document" in
  let index := sample_response "<html>ZenFlow</html>" in
  let w := world_of Active [(STATIC_ASSETS_CACHE, {["https://zen.example/index.html" := index]})] in
  (networkFirstStrategy net_down "https://zen.example/" page STATIC_ASSETS_CACHE w).1
  = Fulfilled (Some index)
  ∧ (networkFirstStrategy net_down "https://zen.example/" page STATIC_ASSETS_CACHE
       (world_of Active [])).1
    = Fulfilled (Some offline_document).
Proof.
  intros page index w. split.
  - destruct (networkFirst_offline_document net_down "https://zen.example/" page
                STATIC_ASSETS_CACHE w "TypeError: Failed to fetch") as [H _];
      [reflexivity | reflexivity | reflexivity |].
    apply H. reflexivity.
  - destruct (networkFirst_offline_document net_down "https://zen.example/" page
                STATIC_ASSETS_CACHE (world_of Active []) "TypeError: Failed to fetch")
      as [_ H]; [reflexivity | reflexivity | reflexivity |].
    apply H. reflexivity.
Defined.

(** C7 as stated fails: the document's key misses the named store, the
    fetch fails, no fallback document is stored anywhere, and yet the answer
    is neither the fallback nor the 503 page: it is the entry another store
    holds for the key. *)
Lemma networkFirst_document_served_from_other_store :
  let page := sample_request "/" "document" in
  let w := world_of Active
             [(STATIC_ASSETS_CACHE, ∅);
              ("other-app", {[RequestKey page := sample_response "theirs"]})] in
  destination page = "document"
  ∧ Caches.match_in STATIC_ASSETS_CACHE (RequestKey page) (storage w) = None
  ∧ Caches.match_ (resolve_url "https://zen.example/" "./index.html") (storage w) = None
  ∧ (networkFirstStrategy net_down "https://zen.example/" page STATIC_ASSETS_CACHE w).1
    = Fulfilled (Some (sample_response "theirs"))
  ∧ status (sample_response "theirs") ≠ 503%Z.
Proof. simpl. repeat split. discriminate. Qed.

(** ** Router *)

(** C6.  A GET request over http(s) that the router takes for an API
    request (the API host, a path containing "/api/", or a host name
    containing "api.") is answered by network-first over the API store,
    whatever its origin, host, destination or file suffix: the API test
    comes before the CDN and static-asset tests. *)
Theorem api_requests_are_network_first
    (net : string → Settled (option Response))
    (location_origin base : string) (request : Request) :
  method request = "GET" →
  protocol (url request) = "http:" ∨ protocol (url request) = "https:" →
  is_api (url request) = true →
  route location_origin request = Some (NetworkFirst, API_CACHE)
  ∧ fetch_handler net location_origin base request
    = Some (networkFirstStrategy net base request API_CACHE).
Proof.
  intros Hm Hp Hapi.
  assert (route location_origin request = Some (NetworkFirst, API_CACHE)) as Hroute.
  { unfold route. rewrite Hm, Hapi. simpl.
    destruct Hp as [-> | ->]; reflexivity. }
  split; [done|]. unfold fetch_handler. by rewrite Hroute.
Qed.

Lemma api_requests_are_network_first_witness :
  let logo := sample_request "/api/logo.png" "image" in
  let cdn := mkRequest "GET"
               (mkURL "https://cdn.jsdelivr.net/api/x.js" "https:" "cdn.jsdelivr.net"
                      "/api/x.js" "https://cdn.jsdelivr.net") "script" in
  is_static_asset logo = true
  ∧ route "https://zen.example" logo = Some (NetworkFirst, API_CACHE)
  ∧ is_cdn (url cdn) = true
  ∧ route "https://zen.example" cdn = Some (NetworkFirst, API_CACHE).
Proof.
  intros logo cdn. split; [reflexivity|]. split; [|split; [reflexivity|]].
  - apply (api_requests_are_network_first net_down "https://zen.example"
             "https://zen.example/" logo); [reflexivity | right; reflexivity | reflexivity].
  - apply (api_requests_are_network_first net_down "https://zen.example"
             "https://zen.example/" cdn); [reflexivity | right; reflexivity | reflexivity].
Defined.

(** ** Lifecycle *)

Create HintDb promise.

Section PromiseFacts.

Context {A B : Type}.

Lemma keeps_resolve (a : A) : keeps_lifecycle (Promise.resolve a).
Proof. by intros w. Qed.

Lemma keeps_reject (e : string) : keeps_lifecycle (Promise.reject (A := A) e).
Proof. by intros w. Qed.

Lemma keeps_then (p : Promise A) (f : A → Promise B) :
  keeps_lifecycle p → (∀ a, keeps_lifecycle (f a)) →
  keeps_lifecycle (Promise.then_ p f).
Proof.
  intros Hp Hf w. unfold Promise.then_. specialize (Hp w).
  destruct (p w) as [[a|e] w']; simpl in *; [|done].
  by rewrite Hf.
Qed.

Lemma keeps_catch (p : Promise A) (h : string → Promise A) :
  keeps_lifecycle p → (∀ e, keeps_lifecycle (h e)) →
  keeps_lifecycle (Promise.catch p h).
Proof.
  intros Hp Hh w. unfold Promise.catch. specialize (Hp w).
  destruct (p w) as [[a|e] w']; simpl in *; [done|].
  by rewrite Hh.
Qed.

Lemma keeps_all (ps : list (Promise A)) :
  Forall keeps_lifecycle ps → keeps_lifecycle (Promise.all ps).
Proof.
  induction 1 as [|p ps Hp _ IH]; intros w; [done|].
  rewrite all_cons. specialize (Hp w).
  destruct (p w) as [[a|e] w']; simpl in *.
  - specialize (IH w'). destruct (Promise.all ps w') as [[l|e] w'']; simpl in *; congruence.
  - rewrite IH. done.
Qed.

Lemma fulfils_resolve (a : A) : fulfils (Promise.resolve a).
Proof. intros w. by exists a. Qed.

Lemma fulfils_then (p : Promise A) (f : A → Promise B) :
  fulfils p → (∀ a, fulfils (f a)) → fulfils (Promise.then_ p f).
Proof.
  intros Hp Hf w. unfold Promise.then_. destruct (Hp w) as [a Ha].
  destruct (p w) as [[a'|e] w']; simpl in *; [|done]. apply Hf.
Qed.

Lemma fulfils_catch (p : Promise A) (h : string → Promise A) :
  (∀ e, fulfils (h e)) → fulfils (Promise.catch p h).
Proof.
  intros Hh w. unfold Promise.catch.
  destruct (p w) as [[a|e] w']; simpl; [eauto | apply Hh].
Qed.

Lemma fulfils_all (ps : list (Promise A)) :
  Forall fulfils ps → fulfils (Promise.all ps).
Proof.
  induction 1 as [|p ps Hp _ IH]; intros w; [by exists []|].
  rewrite all_cons. destruct (Hp w) as [a Ha].
  destruct (p w) as [[a'|e] w']; simpl in *; [|done].
  destruct (IH w') as [l Hl].
  destruct (Promise.all ps w') as [[l'|e] w'']; simpl in *; [eauto | done].
Qed.

End PromiseFacts.

#[export] Hint Resolve keeps_resolve keeps_reject keeps_then keeps_catch keeps_all
  fulfils_resolve fulfils_then fulfils_catch fulfils_all : promise.

Section InstallFacts.

Variable net : string → Settled (option Response).
Variable base : string.
Variable old_worker_in_use : bool.

Lemma keeps_fetch u : keeps_lifecycle (fetch net u).
Proof. by intros w. Qed.

Lemma keeps_caches_open name : keeps_lifecycle (caches_open name).
Proof. by intros w. Qed.

Lemma keeps_cache_put cache key r : keeps_lifecycle (cache_put cache key r).
Proof. intros w. unfold cache_put. by destruct (_ && _). Qed.

Lemma keeps_batch_put cache key r : keeps_lifecycle (batch_put cache key r).
Proof. by intros w. Qed.

Lemma fulfils_caches_open name : fulfils (caches_open name).
Proof. intros w. by exists name. Qed.

Hint Resolve keeps_fetch keeps_caches_open keeps_cache_put keeps_batch_put
  fulfils_caches_open : promise.

Lemma keeps_cache_addAll cache urls :
  keeps_lifecycle (cache_addAll net base cache urls).
Proof.
  unfold cache_addAll. destruct (forallb _ urls); [|apply keeps_reject].
  apply keeps_then.
  - apply keeps_all, Forall_fmap, Forall_true. intros u. apply keeps_fetch.
  - intros responses. destruct (forallb _ responses); [|apply keeps_reject].
    apply keeps_then; [|auto with promise].
    apply keeps_all. revert responses.
    induction urls as [|u urls IH]; intros [|o responses]; simpl; try constructor.
    + destruct o; simpl; auto with promise.
    + apply IH.
Qed.

(** The stores are populated without touching the lifecycle, and
    population is always fulfilled, whatever the network does. *)
Lemma populate_static :
  let p := cache <- caches_open STATIC_ASSETS_CACHE ;;
           Promise.catch (cache_addAll net base cache STATIC_ASSETS)
                         (λ err, Promise.resolve ()) in
  keeps_lifecycle p ∧ fulfils p.
Proof.
  split.
  - apply keeps_then; [auto with promise|]. intros cache.
    apply keeps_catch; [apply keeps_cache_addAll | auto with promise].
  - apply fulfils_then; [auto with promise|]. intros cache.
    apply fulfils_catch. auto with promise.
Qed.

Lemma populate_cdn :
  let p := cache <- caches_open CDN_CACHE ;;
           _ <- Promise.all
                  ((λ url,
                      Promise.catch
                        (response <- fetch net url ;;
                         match response with
                         | Some r =>
                             if response_ok r then cache_put cache url r
                             else Promise.resolve ()
                         | None => Promise.reject "TypeError"
                         end)
                        (λ err, Promise.resolve ()))
                     <$> CDN_RESOURCES) ;;
           Promise.resolve () in
  keeps_lifecycle p ∧ fulfils p.
Proof.
  split.
  - apply keeps_then; [auto with promise|]. intros cache.
    apply keeps_then; [|auto with promise].
    apply keeps_all, Forall_fmap, Forall_true. intros url. simpl.
    apply keeps_catch; [|auto with promise].
    apply keeps_then; [auto with promise|]. intros [r|]; [|auto with promise].
    destruct (response_ok r); auto with promise.
  - apply fulfils_then; [auto with promise|]. intros cache.
    apply fulfils_then; [|auto with promise].
    apply fulfils_all, Forall_fmap, Forall_true. intros url. simpl.
    apply fulfils_catch. auto with promise.
Qed.

(** The install listener: population, then [self.skipWaiting()]. *)
Lemma install_handler_run (w : World) :
  ∃ w1, install_handler net base old_worker_in_use w
        = skipWaiting old_worker_in_use w1
      ∧ lifecycle w1 = lifecycle w.
Proof.
  destruct populate_static as [Hk1 Hf1]. destruct populate_cdn as [Hk2 Hf2].
  cbv zeta in *.
  unfold install_handler. unfold Promise.then_ at 1.
  match goal with |- context [Promise.all ?ps w] => set (members := ps) end.
  assert (keeps_lifecycle (Promise.all members)) as Hk.
  { apply keeps_all. repeat constructor; assumption. }
  assert (fulfils (Promise.all members)) as Hf.
  { apply fulfils_all. repeat constructor; assumption. }
  specialize (Hk w). destruct (Hf w) as [l Hl].
  destruct (Promise.all members w) as [[l'|e] w1]; simpl in *; [|done].
  by exists w1.
Qed.

End InstallFacts.

(** C8, as amended.  When the install listener is done, the stores are
    populated and the listener has itself called [self.skipWaiting()]: the
    worker becomes installed (Waiting) with the skip-waiting flag set and
    goes on to Activating at once, with no external command and even while
    an earlier worker is in use.  The external SKIP_WAITING message makes
    the same call, and moves a worker that is waiting to Activating. *)
Theorem install_skips_waiting_by_itself
    (net : string → Settled (option Response)) (base : string)
    (old_worker_in_use : bool) (w : World) :
  phase w = Installing →
  (∃ w1, install_handler net base old_worker_in_use w = (Fulfilled (), w1)
       ∧ phase w1 = Installing
       ∧ skipWaitingFlag w1 = true
       ∧ install_event net base old_worker_in_use w
         = try_activate old_worker_in_use (with_phase Waiting w1)
       ∧ phase (install_event net base old_worker_in_use w) = Activating)
  ∧ (∀ ports w', phase w' = Waiting →
       phase (message_handler old_worker_in_use (Some (mkData "SKIP_WAITING")) ports w').2
       = Activating).
Proof.
  intros Hphase. split.
  - destruct (install_handler_run net base old_worker_in_use w) as (w0 & Hrun & Hlife).
    injection Hlife as Hp Hf. rewrite Hphase in Hp.
    exists (with_skipWaitingFlag true w0).
    assert (install_handler net base old_worker_in_use w
            = (Fulfilled (), with_skipWaitingFlag true w0)) as Hdone.
    { rewrite Hrun. unfold skipWaiting, try_activate. simpl. by rewrite Hp. }
    unfold install_event. rewrite Hdone.
    split; [done|]. split; [done|]. split; [done|]. split; [done|].
    unfold try_activate. by simpl.
  - intros ports w' Hw'.
    unfold message_handler, Promise.then_, skipWaiting, try_activate.
    simpl. by rewrite Hw'.
Qed.

Lemma install_skips_waiting_by_itself_witness :
  phase (install_event net_down "https://zen.example/" true (world_of Installing []))
  = Activating.
Proof.
  destruct (install_skips_waiting_by_itself net_down "https://zen.example/" true
              (world_of Installing [])) as [(w1 & _ & _ & _ & _ & H) _];
    [reflexivity | exact H].
Defined.

(** C8 as stated fails: with an earlier worker in use and no message ever
    received, the install event alone takes the worker to Activating; it
    does not stay in Waiting. *)
Lemma install_alone_reaches_activating :
  let events := [EvInstall] in
  let w := run net_down "https://zen.example" "https://zen.example/" true events
             (world_of Installing []) in
(SKIP_WAITING ∉ events)
  ∧ phase w = Activating
  ∧ phase w ≠ Waiting.
Proof.
  simpl. repeat split.
  - apply not_elem_of_cons. split; [discriminate | apply not_elem_of_nil].
  - discriminate.
Qed.

(** * Further properties of the worker *)

(** ** Router: which requests are intercepted, and where they go *)

(** Requests that are not GET, or whose scheme is neither http nor https,
    are not intercepted: the listener returns without [respondWith], and
    the fetch event leaves the world as it is. *)
Theorem pass_through_requests_are_untouched
    (net : string → Settled (option Response))
    (location_origin base : string) (old_worker_in_use : bool)
    (request : Request) (w : World) :
  method request ≠ "GET"
  ∨ (protocol (url request) ≠ "http:" ∧ protocol (url request) ≠ "https:") →
  route location_origin request = None
  ∧ dispatch net location_origin base old_worker_in_use (EvFetch request) w = w.
Proof.
  intros H.
  assert (route location_origin request = None) as Hroute.
  { unfold route. destruct H as [Hm | [Hp Hs]].
    - apply eqb_false in Hm. by rewrite Hm.
    - apply eqb_false in Hp, Hs. rewrite Hp, Hs. simpl.
      by destruct (negb (String.eqb (method request) "GET")). }
  split; [done|]. unfold dispatch, fetch_handler. by rewrite Hroute.
Qed.

Lemma pass_through_requests_are_untouched_witness :
  let post := mkRequest "POST" (url (sample_request "/api/save" "")) "" in
  let ext := mkRequest "GET"
               (mkURL "chrome-extension://abc/logo.png" "chrome-extension:" "abc"
                      "/logo.png" "chrome-extension://abc") "image" in
  route "https://zen.example" post = None
  ∧ route "https://zen.example" ext = None.
Proof.
  intros post ext. split.
  - apply (pass_through_requests_are_untouched net_down "https://zen.example"
             "https://zen.example/" true post (world_of Active [])).
    left. discriminate.
  - apply (pass_through_requests_are_untouched net_down "https://zen.example"
             "https://zen.example/" true ext (world_of Active [])).
    right. split; discriminate.
Defined.

(** Every GET request over http(s) is intercepted, and the store it is
    bound to is one of the three stores of the current version, none of
    which the activate listener takes for stale. *)
Theorem intercepted_requests_target_current_stores
    (location_origin : string) (request : Request) :
  method request = "GET" →
  protocol (url request) = "http:" ∨ protocol (url request) = "https:" →
  ∃ s cacheName,
    route location_origin request = Some (s, cacheName)
    ∧ cacheName ∈ [STATIC_ASSETS_CACHE; API_CACHE; CDN_CACHE]
    ∧ is_stale cacheName = false.
Proof.
  intros Hm Hp. unfold route. rewrite Hm. simpl.
  assert (negb (String.eqb (protocol (url request)) "http:")
          && negb (String.eqb (protocol (url request)) "https:") = false) as ->.
  { by destruct Hp as [-> | ->]. }
  destruct (is_api (url request)).
  { exists NetworkFirst, API_CACHE. split; [done|]. split; [|done]. right. left. }
  destruct (is_cdn (url request)).
  { exists CacheFirst, CDN_CACHE. split; [done|]. split; [|done]. right. right. left. }
  destruct (String.eqb (origin (url request)) location_origin);
    [destruct (is_static_asset request); [|destruct (is_document request)]|];
    eexists _, STATIC_ASSETS_CACHE; (split; [done|]); (split; [left|done]).
Qed.

Lemma intercepted_requests_target_current_stores_witness :
  ∃ s cacheName,
    route "https://zen.example" (sample_request "/about" "document") = Some (s, cacheName)
    ∧ cacheName ∈ [STATIC_ASSETS_CACHE; API_CACHE; CDN_CACHE]
    ∧ is_stale cacheName = false.
Proof.
  apply (intercepted_requests_target_current_stores "https://zen.example"
           (sample_request "/about" "document")); [reflexivity | right; reflexivity].
Defined.

(** The store depends on the URL alone: two requests for the same URL are
    bound to the same store, whatever their destination.  So the router
    never spreads one key over two stores. *)
Theorem same_url_same_store
    (location_origin : string) (r1 r2 : Request)
    (s1 s2 : Strategy) (n1 n2 : string) :
  url r1 = url r2 →
  route location_origin r1 = Some (s1, n1) →
  route location_origin r2 = Some (s2, n2) →
  n1 = n2.
Proof.
  unfold route. intros <-.
  destruct (negb (String.eqb (method r1) "GET")); [done|].
  destruct (negb (String.eqb (method r2) "GET")); [done|].
  destruct (negb (String.eqb (protocol (url r1)) "http:")
            && negb (String.eqb (protocol (url r1)) "https:")); [done|].
  destruct (is_api (url r1)); [congruence|].
  destruct (is_cdn (url r1)); [congruence|].
  destruct (String.eqb (origin (url r1)) location_origin); [|congruence].
  destruct (is_static_asset r1), (is_static_asset r2),
    (is_document r1), (is_document r2); congruence.
Qed.

Lemma same_url_same_store_witness :
  route "https://zen.example" (sample_request "/data" "image")
  = Some (CacheFirst, STATIC_ASSETS_CACHE)
  ∧ route "https://zen.example" (sample_request "/data" "document")
    = Some (NetworkFirst, STATIC_ASSETS_CACHE)
  ∧ STATIC_ASSETS_CACHE = "zenflow-v1-static".
Proof.
  split; [reflexivity|]. split; [reflexivity|].
  apply (same_url_same_store "https://zen.example"
           (sample_request "/data" "image") (sample_request "/data" "document")
           CacheFirst NetworkFirst STATIC_ASSETS_CACHE "zenflow-v1-static");
    reflexivity.
Defined.

(** Cache-first is chosen exactly for: a CDN host that is not taken for an
    API, bound to the CDN store; and a same-origin static asset that is
    neither API nor CDN, bound to the static store.  In particular an image
    from any other origin goes network-first. *)
Theorem cache_first_exactly_for_cdn_and_own_assets
    (location_origin : string) (request : Request) (cacheName : string) :
  route location_origin request = Some (CacheFirst, cacheName) ↔
  method request = "GET"
  ∧ (protocol (url request) = "http:" ∨ protocol (url request) = "https:")
  ∧ is_api (url request) = false
  ∧ ((is_cdn (url request) = true ∧ cacheName = CDN_CACHE)
     ∨ (is_cdn (url request) = false
        ∧ origin (url request) = location_origin
        ∧ is_static_asset request = true
        ∧ cacheName = STATIC_ASSETS_CACHE)).
Proof.
  unfold route.
  destruct (String.eqb (method request) "GET") eqn:Em; simpl.
  2: { apply eqb_false in Em. split; [done | by intros [? _]]. }
  apply eqb_true in Em.
  destruct (String.eqb (protocol (url request)) "http:") eqn:Eh;
    destruct (String.eqb (protocol (url request)) "https:") eqn:Es; simpl.
  4: { apply eqb_false in Eh, Es. split; [done|]. by intros (_ & [?|?] & _). }
  all: assert (protocol (url request) = "http:" ∨ protocol (url request) = "https:")
         as Hp by (apply eqb_true in Eh || apply eqb_true in Es; auto).
  all: destruct (is_api (url request));
         [split; [done | by intros (_ & _ & ? & _)]|].
  all: destruct (is_cdn (url request)).
  all: try (split; [intros [= <-]; auto 10 | intros (_ & _ & _ & [[_ ->]|[? _]]); done]).
  all: destruct (String.eqb (origin (url request)) location_origin) eqn:Eo;
         [apply eqb_true in Eo | apply eqb_false in Eo].
  all: try (split; [done | intros (_ & _ & _ & [[? _]|(_ & ? & _)]); done]).
  all: destruct (is_static_asset request).
  all: try (split; [intros [= <-]; auto 10
                   | intros (_ & _ & _ & [[? _]|(_ & _ & _ & ->)]); done]).
  all: destruct (is_document request);
         (split; [done | intros (_ & _ & _ & [[? _]|(_ & _ & ? & _)]); done]).
Qed.

Example foreign_image_is_network_first :
  route "https://zen.example"
    (mkRequest "GET"
       (mkURL "https://pics.example/cat.png" "https:" "pics.example" "/cat.png"
              "https://pics.example") "image")
  = Some (NetworkFirst, STATIC_ASSETS_CACHE).
Proof. reflexivity. Qed.

(** ** Writes: what a completed [cache.put] changes *)

Section WriteFacts.

Implicit Types (cs : CacheStorage) (name key : string) (r : Response).

Lemma get_put_ne cs name name' key r :
  name ≠ name' →
  Caches.get name' (Caches.put name key r cs) = Caches.get name' cs.
Proof.
  intros Hne. unfold Caches.put. induction cs as [|[n c] cs IH]; simpl; [done|].
  destruct (String.eqb n name) eqn:E; simpl.
  - apply eqb_true in E as ->. apply eqb_false in Hne as ->. exact IH.
  - destruct (String.eqb n name'); [done | exact IH].
Qed.

Lemma get_open_ne cs name name' :
  name ≠ name' →
  Caches.get name' (Caches.open name cs) = Caches.get name' cs.
Proof.
  intros Hne. unfold Caches.open. destruct (Caches.has name cs); [done|].
  rewrite get_app. destruct (Caches.get name' cs); [done|]. simpl.
  by apply eqb_false in Hne as ->.
Qed.

Lemma get_open_fresh cs name :
  Caches.get name cs = None → Caches.get name (Caches.open name cs) = Some ∅.
Proof.
  intros H. unfold Caches.open, Caches.has. rewrite H.
  rewrite bool_decide_false by (by intros [? ?]).
  rewrite get_app, H. simpl. by rewrite String.eqb_refl.
Qed.

Lemma get_open_old cs name c :
  Caches.get name cs = Some c → Caches.get name (Caches.open name cs) = Some c.
Proof.
  intros H. unfold Caches.open, Caches.has. rewrite H.
  by rewrite bool_decide_true by eauto.
Qed.

(** A completed write changes one entry of one store. *)
Lemma match_in_run_task_other cs (t : PutTask) name key :
  name ≠ task_cache t ∨ key ≠ task_key t →
  Caches.match_in name key (run_task t cs) = Caches.match_in name key cs.
Proof.
  intros H. unfold run_task.
  destruct (_ && _); [|apply open_keeps_entries].
  unfold Caches.match_in.
  destruct (decide (task_cache t = name)) as [<-|Hne].
  - destruct H as [H|H]; [done|]. rewrite get_put.
    destruct (Caches.get (task_cache t) cs) as [c|] eqn:E.
    + rewrite (get_open_old _ _ _ E). simpl. by apply lookup_insert_ne.
    + rewrite (get_open_fresh _ _ E). simpl.
      rewrite lookup_insert_ne by done. apply lookup_empty.
  - by rewrite get_put_ne, get_open_ne.
Qed.

(** A completed write removes no store. *)
Lemma keys_run_task cs (t : PutTask) name :
  name ∈ Caches.keys cs → name ∈ Caches.keys (run_task t cs).
Proof.
  rewrite <- !get_is_Some. unfold run_task. intros [c Hc].
  assert (is_Some (Caches.get name (Caches.open (task_cache t) cs))) as [c' Hc'].
  { destruct (decide (task_cache t = name)) as [<-|Hne].
    - rewrite (get_open_old _ _ _ Hc). eauto.
    - rewrite get_open_ne by done. eauto. }
  destruct (_ && _); [|eauto].
  destruct (decide (task_cache t = name)) as [<-|Hne].
  - rewrite get_put, Hc'. simpl. eauto.
  - rewrite get_put_ne by done. eauto.
Qed.

Lemma before_absent cs name :
  Caches.get name cs = None → before name cs = cs.
Proof.
  induction cs as [|[n c] cs IH]; simpl; [done|].
  destruct (String.eqb n name); [done|]. intros H. by rewrite IH.
Qed.

Lemma before_run_task cs name (request : Request) r :
  before name (run_task (mkPut name request r) cs) = before name cs.
Proof.
  unfold run_task. simpl.
  assert (∀ key cs', before name (Caches.put name key r cs') = before name cs') as Hput.
  { intros key. unfold Caches.put. induction cs' as [|[n c] cs' IH]; csimpl; [done|].
    destruct (String.eqb n name) eqn:E; csimpl; rewrite E; [done | by rewrite IH]. }
  assert (before name (Caches.open name cs) = before name cs) as Hopen;
    [|by destruct (_ && _); rewrite ?Hput].
  unfold Caches.open, Caches.has.
  case_bool_decide as Hs; [done|].
  assert (Caches.get name cs = None) as Hn by (by apply eq_None_not_Some).
  rewrite (before_absent _ _ Hn). clear Hs.
  induction cs as [|[n c] cs IH]; simpl in *.
  - by rewrite String.eqb_refl.
  - destruct (String.eqb n name); [done|]. by rewrite IH.
Qed.

Lemma match_before_None cs name key :
  Caches.match_ key cs = None → Caches.match_ key (before name cs) = None.
Proof.
  induction cs as [|[n c] cs IH]; simpl; [done|].
  destruct (c !! key) eqn:E; [done|]. intros H.
  destruct (String.eqb n name); [done|]. simpl. rewrite E. by apply IH.
Qed.

(** Once a write has completed, the global lookup finds the written
    response, unless a store created earlier holds the key. *)
Lemma match_run_task cs name (request : Request) r :
  put_accepts_request request = true →
  put_accepts_response r = true →
  Caches.match_ (RequestKey request) (before name cs) = None →
  Caches.match_ (RequestKey request) (run_task (mkPut name request r) cs) = Some r.
Proof.
  intros Hq Hr H. apply (match_before _ name).
  - by apply match_in_run_task.
  - by rewrite before_run_task.
Qed.

End WriteFacts.

Lemma settle_with_request (u : string) (w : World) :
  storage (settle (with_request u w)) = storage (settle w).
Proof. reflexivity. Qed.

Lemma settle_idle (w : World) :
  background w = [] → storage (settle w) = storage w.
Proof. unfold settle. simpl. by intros ->. Qed.

(** What a strategy leaves behind: nothing, a logged fetch, or a logged
    fetch and one pending write to the named store under the request's
    key. *)
Lemma strategy_effect
    (net : string → Settled (option Response)) (base : string)
    (s : Strategy) (request : Request) (cacheName : string) (w : World) :
  let out := run_strategy net base s request cacheName w in
  out.2 = w
  ∨ out.2 = with_request (RequestKey request) w
  ∨ ∃ r, net (RequestKey request) = Fulfilled (Some r)
       ∧ status r = 200%Z
       ∧ out.2 = with_task (mkPut cacheName request r)
                   (with_request (RequestKey request) w).
Proof.
  destruct s; simpl.
  - rewrite networkFirst_run. simpl.
    destruct (net (RequestKey request)) as [[r|]|e] eqn:En; simpl; [|auto|].
    + destruct (status r =? 200)%Z eqn:Es; simpl; [|auto].
      destruct (String.eqb (type r) "error"); simpl; [auto|].
      apply Z.eqb_eq in Es. right. right. by exists r.
    + destruct (Caches.match_ _ _); [auto|].
      destruct (String.eqb _ _); [|auto].
      destruct (Caches.match_ _ _); auto.
  - destruct (Caches.match_ (RequestKey request) (storage w)) as [c|] eqn:Em.
    + rewrite (cacheFirst_hit _ _ _ _ _ Em). auto.
    + rewrite cacheFirst_miss by done. simpl.
      destruct (net (RequestKey request)) as [[r|]|e] eqn:En; simpl; [|auto|].
      * destruct (status r =? 200)%Z eqn:Es; simpl; [|auto].
        apply Z.eqb_eq in Es. right. right. by exists r.
      * destruct (String.eqb _ _); auto.
Qed.

(** ** Strategies: what they write, and how often they fetch *)

(** Handling a request, whichever the strategy, changes at most one entry
    of the cache storage: the one under the request's key in the named
    store.  Every other entry of every store is the same once the pending
    writes have completed, and no store disappears. *)
Theorem strategies_write_one_entry
    (net : string → Settled (option Response)) (base : string)
    (s : Strategy) (request : Request) (cacheName : string) (w : World)
    (name key : string) :
  name ≠ cacheName ∨ key ≠ RequestKey request →
  let out := run_strategy net base s request cacheName w in
  Caches.match_in name key (storage (settle out.2))
  = Caches.match_in name key (storage (settle w))
  ∧ (name ∈ Caches.keys (storage (settle w)) →
     name ∈ Caches.keys (storage (settle out.2))).
Proof.
  intros Hother out. subst out.
  destruct (strategy_effect net base s request cacheName w)
    as [-> | [-> | (r & _ & _ & ->)]]; [done | done |].
  rewrite settle_with_task, settle_with_request. split.
  - by apply match_in_run_task_other.
  - apply keys_run_task.
Qed.

Lemma strategies_write_one_entry_witness :
  let request := sample_request "/app.js" "script" in
  let w := world_of Active
             [(STATIC_ASSETS_CACHE, {["https://zen.example/style.css" := sample_response "css"]});
              (API_CACHE, {[RequestKey request := sample_response "api"]})] in
  let out := cacheFirstStrategy (net_ok "fresh") (sample_request "/new.js" "script")
               STATIC_ASSETS_CACHE w in
  Caches.match_in STATIC_ASSETS_CACHE "https://zen.example/style.css" (storage (settle out.2))
  = Some (sample_response "css")
  ∧ Caches.match_in API_CACHE (RequestKey request) (storage (settle out.2))
    = Some (sample_response "api").
Proof.
  intros request w out. split.
  - destruct (strategies_write_one_entry (net_ok "fresh") "https://zen.example/" CacheFirst
                (sample_request "/new.js" "script") STATIC_ASSETS_CACHE w
                STATIC_ASSETS_CACHE "https://zen.example/style.css") as [H _].
    + right. discriminate.
    + exact H.
  - destruct (strategies_write_one_entry (net_ok "fresh") "https://zen.example/" CacheFirst
                (sample_request "/new.js" "script") STATIC_ASSETS_CACHE w
                API_CACHE (RequestKey request)) as [H _].
    + left. discriminate.
    + exact H.
Defined.

(** Network-first never rejects: whatever the network and the stores hold,
    its promise is fulfilled, and with a response unless [fetch] itself was
    fulfilled with none. *)
Theorem networkFirst_never_rejects
    (net : string → Settled (option Response)) (base : string)
    (request : Request) (cacheName : string) (w : World) :
  ∃ answer,
    (networkFirstStrategy net base request cacheName w).1 = Fulfilled answer
    ∧ (net (RequestKey request) ≠ Fulfilled None → is_Some answer).
Proof.
  rewrite networkFirst_run. simpl.
  destruct (net (RequestKey request)) as [[r|]|e]; simpl.
  - destruct (negb _ || _); (eexists; split; [reflexivity | eauto]).
  - exists None. by split.
  - destruct (Caches.match_ _ _);
      [|destruct (String.eqb _ _); [destruct (Caches.match_ _ _)|]];
      (eexists; split; [reflexivity | eauto]).
Qed.

(** Network-first goes to the network exactly once for every request, also
    when a store holds the key, and changes no store while it runs (a write
    it starts completes later). *)
Theorem networkFirst_fetches_exactly_once
    (net : string → Settled (option Response)) (base : string)
    (request : Request) (cacheName : string) (w : World) :
  let out := networkFirstStrategy net base request cacheName w in
  requested out.2 = requested w ++ [RequestKey request]
  ∧ storage out.2 = storage w.
Proof.
  simpl. rewrite networkFirst_run. simpl.
  destruct (net (RequestKey request)) as [[r|]|e]; simpl; [|done|].
  - by destruct (negb _ || _).
  - destruct (Caches.match_ _ _); [done|].
    destruct (String.eqb _ _); [|done].
    by destruct (Caches.match_ _ _).
Qed.

(** Cache-first goes to the network only on a miss, and then once. *)
Theorem cacheFirst_fetches_only_on_miss
    (net : string → Settled (option Response))
    (request : Request) (cacheName : string) (w : World) :
  let out := cacheFirstStrategy net request cacheName w in
  requested out.2
  = match Caches.match_ (RequestKey request) (storage w) with
    | Some _ => requested w
    | None => requested w ++ [RequestKey request]
    end
  ∧ storage out.2 = storage w.
Proof.
  simpl. destruct (Caches.match_ (RequestKey request) (storage w)) as [c|] eqn:Em.
  - by rewrite (cacheFirst_hit _ _ _ _ _ Em).
  - rewrite cacheFirst_miss by done. simpl.
    destruct (net (RequestKey request)) as [[r|]|e]; simpl; [|done|].
    + by destruct (negb _).
    + by destruct (String.eqb _ _).
Qed.

(** Offline, with nothing stored for the key, a request that is not for a
    document gets the terse 503 answer from network-first: a plain-text
    body, whose only header is the Content-Type that the Response
    constructor gives a string body. *)
Theorem networkFirst_offline_resource
    (net : string → Settled (option Response)) (base : string)
    (request : Request) (cacheName : string) (w : World) (e : string) :
  destination request ≠ "document" →
  net (RequestKey request) = Rejected e →
  Caches.match_ (RequestKey request) (storage w) = None →
  ∃ answer,
    (networkFirstStrategy net base request cacheName w).1 = Fulfilled (Some answer)
    ∧ status answer = 503%Z
    ∧ statusText answer = "Service Unavailable"
    ∧ body answer = "Service unavailable - offline"
    ∧ headers answer = [("content-type", "text/plain;charset=UTF-8")].
Proof.
  intros Hd He Hmiss. exists offline_response.
  rewrite networkFirst_run. simpl. rewrite He, Hmiss.
  apply eqb_false in Hd. by rewrite Hd.
Qed.

Lemma networkFirst_offline_resource_witness :
  (networkFirstStrategy net_down "https://zen.example/" (sample_request "/api/me" "")
     API_CACHE (world_of Active [])).1
  = Fulfilled (Some offline_response).
Proof.
  destruct (networkFirst_offline_resource net_down "https://zen.example/"
              (sample_request "/api/me" "") API_CACHE (world_of Active [])
              "TypeError: Failed to fetch") as (answer & H & _);
    [discriminate | reflexivity | reflexivity |].
  reflexivity.
Defined.

(** ** Round trips through the stores *)

(** A cache-first miss that fetches a 200 response the cache accepts (a
    GET request over http(s), no "Vary: *") fills the store: once the write
    has completed, the same request is a hit, answered with that response
    and without the network, whatever the network would say. *)
Theorem cacheFirst_miss_then_hit
    (net net' : string → Settled (option Response))
    (request : Request) (cacheName cacheName' : string) (w : World) (r : Response) :
  background w = [] →
  Caches.match_ (RequestKey request) (storage w) = None →
  net (RequestKey request) = Fulfilled (Some r) →
  status r = 200%Z →
  put_accepts_request request = true →
  vary_star r = false →
  let first := cacheFirstStrategy net request cacheName w in
  let w1 := settle first.2 in
  first.1 = Fulfilled (Some r)
  ∧ cacheFirstStrategy net' request cacheName' w1 = (Fulfilled (Some r), w1).
Proof.
  intros Hbg Hmiss Hnet Hs Hq Hv. cbv zeta.
  assert (put_accepts_response r = true) as Hr.
  { unfold put_accepts_response. by rewrite Hs, Hv. }
  rewrite cacheFirst_miss by done. cbv zeta. rewrite Hnet.
  apply Z.eqb_eq in Hs. rewrite Hs. cbn [negb fst snd]. split; [done|].
  apply cacheFirst_hit.
  rewrite settle_with_task, settle_with_request, settle_idle by done.
  apply match_run_task; [done..|]. by apply match_before_None.
Qed.

Lemma cacheFirst_miss_then_hit_witness :
  let request := sample_request "/app.js" "script" in
  let w := world_of Active [(STATIC_ASSETS_CACHE, ∅)] in
  let w1 := settle (cacheFirstStrategy (net_ok "fresh") request STATIC_ASSETS_CACHE w).2 in
  cacheFirstStrategy net_down request STATIC_ASSETS_CACHE w1
  = (Fulfilled (Some (sample_response "fresh")), w1).
Proof.
  intros request w w1.
  apply (cacheFirst_miss_then_hit (net_ok "fresh") net_down request
           STATIC_ASSETS_CACHE STATIC_ASSETS_CACHE w (sample_response "fresh"));
    reflexivity.
Defined.



(** ** Activation, in closed form *)

Lemma filter_ext_in {A} (P Q : A → Prop)
    `{!∀ x, Decision (P x), !∀ x, Decision (Q x)} (l : list A) :
  (∀ x, x ∈ l → (P x ↔ Q x)) → filter P l = filter Q l.
Proof.
  induction l as [|x l IH]; intros Hext; [done|].
  rewrite !filter_cons.
  rewrite IH by (intros y Hy; apply Hext; by right).
  destruct (decide (P x)) as [Hp|Hp], (decide (Q x)) as [Hq|Hq]; try done.
  - destruct Hq. apply Hext; [left | done].
  - destruct Hp. apply Hext; [left | done].
Qed.

Lemma prune_names_filter (names : list string) (cs : CacheStorage) :
  prune_names names cs = filter (λ p, is_stale p.1 = false ∨ p.1 ∉ names) cs.
Proof.
  unfold prune_names. revert cs. induction names as [|n names IH]; intros cs; simpl.
  - symmetry. induction cs as [|x cs IHcs]; [done|].
    rewrite filter_cons_True; [by rewrite IHcs | right; apply not_elem_of_nil].
  - rewrite IH. destruct (is_stale n) eqn:En.
    + unfold Caches.delete. rewrite list_filter_filter. apply list_filter_iff.
      intros [m c]; simpl. rewrite not_elem_of_cons. split.
      * intros [[Hs|Hin] Hne]; auto.
      * intros [Hs|[Hne Hin]]; [|auto]. split; [auto|]. congruence.
    + apply list_filter_iff. intros [m c]; simpl. rewrite not_elem_of_cons. split.
      * intros [Hs|Hin]; [auto|]. destruct (is_stale m) eqn:Em; [|auto].
        right. split; [congruence | done].
      * intros [Hs|[_ Hin]]; auto.
Qed.

Lemma pruneStale_filter (w : World) :
  (pruneStale w).2 = with_storage (filter (λ p, is_stale p.1 = false)) w.
Proof.
  rewrite pruneStale_world. destruct w as [cs ? ? ? ? ?]. unfold with_storage. simpl.
  f_equal. rewrite prune_names_filter. apply filter_ext_in.
  intros [n c] Hin. simpl. split; [|auto].
  intros [Hs|Hn]; [done|]. destruct Hn. unfold Caches.keys.
  apply list_elem_of_fmap. by exists (n, c).
Qed.


(** Activating a second time changes nothing. *)
Theorem pruneStale_idempotent (w : World) :
  (pruneStale (pruneStale w).2).2 = (pruneStale w).2.
Proof.
  rewrite !pruneStale_filter.
  destruct w as [cs ? ? ? ? ?]. unfold with_storage. simpl. f_equal.
  rewrite list_filter_filter. apply list_filter_iff. intros x. tauto.
Qed.

(** ** Installation: what ends up in the stores *)

Section InstallStorage.

Variable net : string → Settled (option Response).
Variable base : string.

Lemma fetch_all_run (f : string → string) (urls : list string) (w : World) :
  ∃ o w',
    Promise.all ((λ u, fetch net (f u)) <$> urls) w = (o, w')
    ∧ storage w' = storage w
    ∧ match o with
      | Fulfilled rs => Forall2 (λ u o, net (f u) = Fulfilled o) urls rs
      | Rejected _ => Exists (λ u, outcome_ok (net (f u)) = false) urls
      end.
Proof.
  revert w. induction urls as [|u urls IH]; intros w.
  { exists (Fulfilled []), w. repeat split. constructor. }
  rewrite fmap_cons, all_cons.
  destruct (IH (with_request (f u) w)) as (o & w' & Hrun & Hs & Ho).
  cbv beta. change (fetch net (f u) w) with (net (f u), with_request (f u) w).
  cbv beta iota. rewrite Hrun. destruct (net (f u)) as [a|e] eqn:En.
  - destruct o as [rs|e].
    + eexists _, w'. split; [done|]. split; [done|]. by constructor.
    + eexists _, w'. split; [done|]. split; [done|]. by right.
  - eexists _, w'. split; [done|]. split; [done|]. left. by rewrite En.
Qed.

Lemma forallb_outcomes (f : string → string) (urls : list string)
    (rs : list (option Response)) :
  Forall2 (λ u o, net (f u) = Fulfilled o) urls rs →
  forallb (λ o, from_option addAll_accepts false o) rs
  = forallb (λ u, outcome_storable (net (f u))) urls.
Proof.
  induction 1 as [|u o urls rs Hu _ IH]; [done|].
  simpl. rewrite IH, Hu. by destruct o.
Qed.

Lemma put_if_ok_ok (cache key : string) (r : Response) (cs : CacheStorage) :
  http_url key = true →
  addAll_accepts r = true →
  put_if_ok cache key (Fulfilled (Some r)) cs = Caches.put cache key r cs.
Proof.
  intros Hk [Hok Hr]%andb_prop. unfold put_if_ok. by rewrite Hok, Hk, Hr.
Qed.

Lemma put_all_run (cache : string) (f : string → string) (urls : list string)
    (rs : list (option Response)) (w : World) :
  Forall2 (λ u o, net (f u) = Fulfilled o) urls rs →
  forallb (λ u, http_url (f u)) urls = true →
  forallb (λ o, from_option addAll_accepts false o) rs = true →
  ∃ l, Promise.all
         (zip_with (λ u o, from_option (batch_put cache (f u)) (Promise.resolve ()) o)
                   urls rs) w
       = (Fulfilled l,
          with_storage (λ cs, foldl (λ cs u, put_if_ok cache (f u) (net (f u)) cs) cs urls) w).
Proof.
  intros HF. revert w. induction HF as [|u o urls rs Hu _ IH]; intros w Hhttp Hok.
  - exists []. simpl. unfold Promise.resolve. by rewrite <- (with_storage_id w) at 1.
  - simpl in Hok, Hhttp. apply andb_prop in Hok as [Ho Hok].
    apply andb_prop in Hhttp as [Hk Hhttp].
    destruct o as [r|]; [|done]. simpl in Ho.
    cbn [zip_with]. rewrite all_cons. cbn [from_option]. unfold batch_put at 1.
    destruct (IH (with_storage (Caches.put cache (f u) r) w) Hhttp Hok) as [l ->].
    eexists. f_equal. destruct w as [cs ? ? ? ? ?]. unfold with_storage.
    cbn [storage requested background phase skipWaitingFlag claimed foldl].
    rewrite Hu. by rewrite (put_if_ok_ok _ _ _ _ Hk Ho).
Qed.

Lemma storable_is_ok (o : Settled (option Response)) :
  outcome_storable o = true → outcome_ok o = true.
Proof.
  destruct o as [[r|]|e]; [|done|done]. simpl. unfold addAll_accepts.
  by intros [? _]%andb_prop.
Qed.

Lemma exists_not_ok (f : string → string) (urls : list string) :
  Exists (λ u, outcome_ok (net (f u)) = false) urls →
  forallb (λ u, outcome_storable (net (f u))) urls = false.
Proof.
  induction 1 as [u urls Hu | u urls _ IH]; simpl.
  - destruct (outcome_storable (net (f u))) eqn:E; [|done].
    apply storable_is_ok in E. congruence.
  - rewrite IH. apply andb_false_r.
Qed.

(** [cache.addAll] with its rejection caught is always fulfilled, and is
    all or nothing. *)
Lemma addAll_run (cache : string) (urls : list string) (w : World) :
  ∃ w',
    Promise.catch (cache_addAll net base cache urls) (λ err, Promise.resolve ()) w
    = (Fulfilled (), w')
    ∧ storage w' = addAll_effect net base cache urls (storage w).
Proof.
  unfold Promise.catch, cache_addAll, addAll_effect.
  destruct (forallb (λ u, http_url (resolve_url base u)) urls) eqn:Hhttp.
  2: { exists w. by split. }
  unfold Promise.then_ at 1.
  destruct (fetch_all_run (resolve_url base) urls w) as (o & w1 & -> & Hs & Hout).
  destruct o as [rs|e].
  - rewrite <- (forallb_outcomes _ _ _ Hout).
    destruct (forallb _ rs) eqn:Hok.
    + unfold Promise.then_.
      destruct (put_all_run cache (resolve_url base) urls rs w1 Hout Hhttp Hok) as [l ->].
      eexists. split; [reflexivity|]. simpl. by rewrite Hs.
    + eexists. split; [reflexivity|]. done.
  - rewrite (exists_not_ok _ _ Hout). eexists. split; [reflexivity|]. done.
Qed.

Lemma each_run (cache : string) (urls : list string) (w : World) :
  ∃ l w',
    Promise.all
      ((λ url,
          Promise.catch
            (response <- fetch net url ;;
             match response with
             | Some r =>
                 if response_ok r then cache_put cache url r
                 else Promise.resolve ()
             | None => Promise.reject "TypeError"
             end)
            (λ err, Promise.resolve ()))
         <$> urls) w
    = (Fulfilled l, w')
    ∧ storage w' = each_effect net cache urls (storage w).
Proof.
  revert w. induction urls as [|u urls IH]; intros w.
  - by exists [], w.
  - rewrite fmap_cons, all_cons.
    unfold Promise.catch at 1, Promise.then_ at 1, fetch at 1.
    unfold each_effect. cbn [foldl]. unfold put_if_ok at 2.
    destruct (net u) as [[r|]|e]; simpl.
    + destruct (response_ok r); simpl.
      * unfold cache_put at 1.
        destruct (http_url u && put_accepts_response r); simpl.
        -- destruct (IH (with_storage (Caches.put cache u r) (with_request u w)))
             as (l & w' & -> & Hs). by eexists _, w'.
        -- destruct (IH (with_request u w)) as (l & w' & -> & Hs). by eexists _, w'.
      * destruct (IH (with_request u w)) as (l & w' & -> & Hs). by eexists _, w'.
    + destruct (IH (with_request u w)) as (l & w' & -> & Hs). by eexists _, w'.
    + destruct (IH (with_request u w)) as (l & w' & -> & Hs). by eexists _, w'.
Qed.

Lemma storage_skipWaiting (old_worker_in_use : bool) (w : World) :
  storage (skipWaiting old_worker_in_use w).2 = storage w.
Proof.
  unfold skipWaiting, try_activate. simpl. by destruct (_ && _).
Qed.

Lemma static_part_run (w : World) :
  ∃ w',
    (cache <- caches_open STATIC_ASSETS_CACHE ;;
     Promise.catch (cache_addAll net base cache STATIC_ASSETS)
                   (λ err, Promise.resolve ())) w
    = (Fulfilled (), w')
    ∧ storage w'
      = addAll_effect net base STATIC_ASSETS_CACHE STATIC_ASSETS
          (Caches.open STATIC_ASSETS_CACHE (storage w)).
Proof.
  unfold Promise.then_ at 1, caches_open at 1.
  destruct (addAll_run STATIC_ASSETS_CACHE STATIC_ASSETS
              (with_storage (Caches.open STATIC_ASSETS_CACHE) w)) as (w1 & -> & Hs1).
  by exists w1.
Qed.

Lemma cdn_part_run (w : World) :
  ∃ w',
    (cache <- caches_open CDN_CACHE ;;
     _ <- Promise.all
            ((λ url,
                Promise.catch
                  (response <- fetch net url ;;
                   match response with
                   | Some r =>
                       if response_ok r then cache_put cache url r
                       else Promise.resolve ()
                   | None => Promise.reject "TypeError"
                   end)
                  (λ err, Promise.resolve ()))
               <$> CDN_RESOURCES) ;;
     Promise.resolve ()) w
    = (Fulfilled (), w')
    ∧ storage w' = each_effect net CDN_CACHE CDN_RESOURCES (Caches.open CDN_CACHE (storage w)).
Proof.
  unfold Promise.then_ at 1, caches_open at 1. cbv beta iota.
  unfold Promise.then_ at 1.
  destruct (each_run CDN_CACHE CDN_RESOURCES (with_storage (Caches.open CDN_CACHE) w))
    as (l & w2 & -> & Hs2).
  by exists w2.
Qed.

(** The stores after the install listener is done. *)
Lemma install_handler_storage (old_worker_in_use : bool) (w : World) :
  storage (install_handler net base old_worker_in_use w).2
  = installed_storage net base (storage w).
Proof.
  unfold install_handler. unfold Promise.then_ at 1. rewrite all_cons.
  destruct (static_part_run w) as (w1 & -> & Hs1). rewrite all_cons.
  destruct (cdn_part_run w1) as (w2 & -> & Hs2).
  cbn [Promise.all]. unfold Promise.resolve at 1.
  rewrite storage_skipWaiting, Hs2. by rewrite Hs1.
Qed.

End InstallStorage.

Section PutFacts.

Implicit Types (cs : CacheStorage) (cache name key : string).

Lemma keys_put cs cache key r :
  Caches.keys (Caches.put cache key r cs) = Caches.keys cs.
Proof.
  unfold Caches.keys, Caches.put. rewrite <- list_fmap_compose.
  apply list_fmap_ext. intros _ [n c] _. simpl. by destruct (String.eqb n cache).
Qed.

Lemma keys_put_if_ok cs cache key o :
  Caches.keys (put_if_ok cache key o cs) = Caches.keys cs.
Proof.
  unfold put_if_ok. destruct o as [[r|]|e]; [|done|done].
  destruct (response_ok r && _); [apply keys_put | done].
Qed.

Lemma keys_open_elem cs cache name :
  name ∈ Caches.keys (Caches.open cache cs) ↔ name = cache ∨ name ∈ Caches.keys cs.
Proof.
  unfold Caches.open, Caches.has. case_bool_decide as Hs.
  - apply get_is_Some in Hs. split; [auto | by intros [->|?]].
  - unfold Caches.keys. rewrite fmap_app, elem_of_app. simpl.
    rewrite list_elem_of_singleton. tauto.
Qed.

Lemma open_open cs cache :
  Caches.open cache (Caches.open cache cs) = Caches.open cache cs.
Proof.
  unfold Caches.open at 1. unfold Caches.has.
  by rewrite bool_decide_true by apply get_open.
Qed.

Lemma open_present cs cache :
  cache ∈ Caches.keys cs → Caches.open cache cs = cs.
Proof.
  intros H. apply get_is_Some in H. unfold Caches.open, Caches.has.
  by rewrite bool_decide_true.
Qed.

Lemma match_in_open cs cache name key :
  Caches.match_in name key (Caches.open cache cs) = Caches.match_in name key cs.
Proof.
  unfold Caches.match_in. destruct (decide (cache = name)) as [->|Hne].
  - destruct (Caches.get name cs) as [c|] eqn:E.
    + by rewrite (get_open_old _ _ _ E).
    + by rewrite (get_open_fresh _ _ E).
  - by rewrite get_open_ne.
Qed.

Lemma match_in_put cs cache name key key' r :
  Caches.match_in name key' (Caches.put cache key r cs)
  = if decide (cache = name ∧ key = key')
    then (λ _, r) <$> Caches.get name cs
    else Caches.match_in name key' cs.
Proof.
  unfold Caches.match_in. destruct (decide (cache = name)) as [->|Hne].
  - rewrite get_put. destruct (Caches.get name cs) as [c|]; simpl.
    + destruct (decide (key = key')) as [->|Hk].
      * rewrite decide_True by done. apply lookup_insert_eq.
      * rewrite decide_False by tauto. by apply lookup_insert_ne.
    + by destruct (decide _).
  - rewrite get_put_ne by done. by rewrite decide_False by tauto.
Qed.

Lemma get_put_if_ok_is_Some cs cache key o name :
  is_Some (Caches.get name cs) → is_Some (Caches.get name (put_if_ok cache key o cs)).
Proof.
  rewrite !get_is_Some. by rewrite keys_put_if_ok.
Qed.

Variable net : string → Settled (option Response).

Lemma keys_puts cache (g : string → string) (urls : list string) cs :
  Caches.keys (foldl (λ cs u, put_if_ok cache (g u) (net (g u)) cs) cs urls)
  = Caches.keys cs.
Proof.
  revert cs. induction urls as [|u urls IH]; intros cs; simpl; [done|].
  by rewrite IH, keys_put_if_ok.
Qed.

(** After a run of conditional writes to one store, a key whose fetch was
    ok holds the fetched response. *)
Lemma lookup_after_puts cache (g : string → string) (urls : list string) cs u r :
  is_Some (Caches.get cache cs) →
  u ∈ urls →
  net (g u) = Fulfilled (Some r) →
  http_url (g u) = true →
  addAll_accepts r = true →
  Caches.match_in cache (g u)
    (foldl (λ cs u, put_if_ok cache (g u) (net (g u)) cs) cs urls) = Some r.
Proof.
  intros Hc Hin Hnet Hk [Hok Hr]%andb_prop.
  induction urls as [|x urls IH] using rev_ind.
  - by apply elem_of_nil in Hin.
  - rewrite foldl_app. simpl.
    set (cs' := foldl _ cs urls) in *.
    assert (is_Some (Caches.get cache cs')) as [c' Hc'].
    { apply get_is_Some. unfold cs'. rewrite keys_puts. by apply get_is_Some. }
    destruct (decide (g x = g u)) as [Heq|Hne].
    + rewrite Heq, Hnet. unfold put_if_ok. rewrite Hok, Hk, Hr. simpl.
      rewrite match_in_put, decide_True by done. by rewrite Hc'.
    + apply elem_of_app in Hin as [Hin|Hin%list_elem_of_singleton]; [|congruence].
      unfold put_if_ok. destruct (net (g x)) as [[rx|]|e]; [|by apply IH|by apply IH].
      destruct (response_ok rx && _); [|by apply IH].
      rewrite match_in_put, decide_False by tauto. by apply IH.
Qed.

(** Conditional writes leave alone every other store, and every key whose
    fetch was not ok or whose URL or response the cache refuses. *)
Lemma lookup_puts_unchanged cache (g : string → string) (urls : list string) cs name key :
  name ≠ cache ∨ http_url key && outcome_storable (net key) = false →
  Caches.match_in name key
    (foldl (λ cs u, put_if_ok cache (g u) (net (g u)) cs) cs urls)
  = Caches.match_in name key cs.
Proof.
  intros H. revert cs. induction urls as [|x urls IH]; intros cs; simpl; [done|].
  rewrite IH. unfold put_if_ok.
  destruct (net (g x)) as [[rx|]|e] eqn:En; [|done|done].
  destruct (response_ok rx && (http_url (g x) && put_accepts_response rx)) eqn:Eok;
    [|done].
  rewrite match_in_put. rewrite decide_False; [done|].
  intros [-> <-]. destruct H as [H|H]; [done|].
  rewrite En in H. simpl in H. unfold addAll_accepts in H.
  destruct (response_ok rx), (http_url (g x)), (put_accepts_response rx); done.
Qed.

End PutFacts.

Lemma keys_installed_storage
    (net : string → Settled (option Response)) (base : string) (cs : CacheStorage) :
  Caches.keys (installed_storage net base cs)
  = Caches.keys (Caches.open CDN_CACHE (Caches.open STATIC_ASSETS_CACHE cs)).
Proof.
  unfold installed_storage, each_effect.
  rewrite (keys_puts net CDN_CACHE (λ u, u)).
  assert (∀ cs', Caches.keys (addAll_effect net base STATIC_ASSETS_CACHE STATIC_ASSETS cs')
                 = Caches.keys cs') as Hk.
  { intros cs'. unfold addAll_effect. destruct (_ && _); [|done].
    apply (keys_puts net STATIC_ASSETS_CACHE (resolve_url base)). }
  set (cs1 := Caches.open STATIC_ASSETS_CACHE cs).
  unfold Caches.open, Caches.has.
  destruct (bool_decide (is_Some (Caches.get CDN_CACHE cs1))) eqn:E1.
  - apply bool_decide_eq_true in E1.
    rewrite bool_decide_true by (apply get_is_Some; rewrite Hk; by apply get_is_Some).
    apply Hk.
  - apply bool_decide_eq_false in E1.
    rewrite bool_decide_false
      by (intros H; apply E1, get_is_Some; rewrite <- (Hk cs1); by apply get_is_Some).
    unfold Caches.keys in *. by rewrite !fmap_app, Hk.
Qed.

(** Installation creates the static and the CDN store when they are
    missing, whatever the network does, and removes no store. *)
Theorem install_creates_the_stores
    (net : string → Settled (option Response)) (base : string)
    (old_worker_in_use : bool) (w : World) :
  let names := Caches.keys (storage (install_handler net base old_worker_in_use w).2) in
  STATIC_ASSETS_CACHE ∈ names
  ∧ CDN_CACHE ∈ names
  ∧ (∀ name, name ∈ names ↔
       name = STATIC_ASSETS_CACHE ∨ name = CDN_CACHE ∨ name ∈ Caches.keys (storage w)).
Proof.
  cbv zeta. rewrite install_handler_storage, keys_installed_storage.
  assert (∀ name, name ∈ Caches.keys (Caches.open CDN_CACHE
                                         (Caches.open STATIC_ASSETS_CACHE (storage w)))
                  ↔ name = STATIC_ASSETS_CACHE ∨ name = CDN_CACHE
                    ∨ name ∈ Caches.keys (storage w)) as H.
  { intros name. rewrite !keys_open_elem. tauto. }
  split; [apply H; auto|]. split; [apply H; auto | exact H].
Qed.

(** Installing over stores that an earlier installation created adds no
    store: the names are the same, in the same order. *)
Theorem install_again_adds_no_store
    (net net' : string → Settled (option Response)) (base : string)
    (old_worker_in_use : bool) (w : World) :
  let w1 := (install_handler net base old_worker_in_use w).2 in
  Caches.keys (storage (install_handler net' base old_worker_in_use w1).2)
  = Caches.keys (storage w1).
Proof.
  cbv zeta. rewrite (install_handler_storage net'), keys_installed_storage.
  set (cs1 := storage (install_handler net base old_worker_in_use w).2).
  assert (Caches.keys cs1
          = Caches.keys (Caches.open CDN_CACHE
                           (Caches.open STATIC_ASSETS_CACHE (storage w)))) as Hk.
  { unfold cs1. by rewrite install_handler_storage, keys_installed_storage. }
  assert (STATIC_ASSETS_CACHE ∈ Caches.keys cs1) as Hs.
  { rewrite Hk, !keys_open_elem. auto. }
  assert (CDN_CACHE ∈ Caches.keys cs1) as Hc.
  { rewrite Hk, !keys_open_elem. auto. }
  rewrite (open_present cs1 STATIC_ASSETS_CACHE) by done.
  by rewrite (open_present cs1 CDN_CACHE).
Qed.

Lemma http_url_app (base rest : string) :
  http_url base = true → http_url (base +:+ rest) = true.
Proof.
  assert (∀ p s t, String.prefix p s = true → String.prefix p (s +:+ t) = true) as H.
  { induction p as [|a p IH]; intros [|b s] t; simpl; try done.
    - intros _. by destruct t.
    - destruct (Ascii.ascii_dec a b); [apply IH | done]. }
  unfold http_url, startsWith. intros [Hp|Hp]%orb_prop.
  - by rewrite (H _ _ _ Hp).
  - rewrite (H _ _ _ Hp). apply orb_true_r.
Qed.

Lemma static_assets_http (base : string) :
  http_url base = true →
  forallb (λ u, http_url (resolve_url base u)) STATIC_ASSETS = true.
Proof.
  intros H. unfold STATIC_ASSETS. simpl. by rewrite !http_url_app.
Qed.

Lemma cdn_resources_http (u : string) :
  u ∈ CDN_RESOURCES → http_url u = true.
Proof.
  unfold CDN_RESOURCES. intros H.
  repeat (apply elem_of_cons in H as [->|H]; [reflexivity|]).
  by apply elem_of_nil in H.
Qed.

Lemma installed_storage_static
    (net : string → Settled (option Response)) (base : string)
    (cs : CacheStorage) (asset : string) (r : Response) :
  http_url base = true →
  Forall (λ u, outcome_storable (net (resolve_url base u)) = true) STATIC_ASSETS →
  asset ∈ STATIC_ASSETS →
  net (resolve_url base asset) = Fulfilled (Some r) →
  Caches.match_in STATIC_ASSETS_CACHE (resolve_url base asset)
    (installed_storage net base cs) = Some r.
Proof.
  intros Hbase Hall Hin Hnet. unfold installed_storage, each_effect.
  rewrite (lookup_puts_unchanged net CDN_CACHE (λ u, u)) by (left; discriminate).
  rewrite match_in_open. unfold addAll_effect.
  pose proof (static_assets_http base Hbase) as Hhttp. rewrite Hhttp.
  assert (forallb (λ u, outcome_storable (net (resolve_url base u))) STATIC_ASSETS = true)
    as ->.
  { apply forallb_forall. intros u Hu. rewrite Forall_forall in Hall.
    apply Hall. by apply list_elem_of_In. }
  cbn [andb].
  apply (lookup_after_puts net STATIC_ASSETS_CACHE (resolve_url base)).
  - apply get_open.
  - done.
  - done.
  - rewrite forallb_forall in Hhttp. apply Hhttp. by apply list_elem_of_In.
  - rewrite Forall_forall in Hall. specialize (Hall asset Hin).
    by rewrite Hnet in Hall.
Qed.

(** When the worker is served over http(s) and every static asset of the
    manifest is fetched with a response that [cache.addAll] accepts (an ok
    status other than 206, no "Vary: *"), every one of them is in the
    static store after installation, under its resolved URL. *)
Theorem install_precaches_static_assets
    (net : string → Settled (option Response)) (base : string)
    (old_worker_in_use : bool) (w : World) (asset : string) (r : Response) :
  http_url base = true →
  Forall (λ u, outcome_storable (net (resolve_url base u)) = true) STATIC_ASSETS →
  asset ∈ STATIC_ASSETS →
  net (resolve_url base asset) = Fulfilled (Some r) →
  Caches.match_in STATIC_ASSETS_CACHE (resolve_url base asset)
    (storage (install_handler net base old_worker_in_use w).2) = Some r.
Proof.
  intros Hbase Hall Hin Hnet. rewrite install_handler_storage.
  by apply installed_storage_static.
Qed.

(** The static assets are stored all or none: when the fetch of any one of
    them fails or is not ok, installation leaves every entry of the static
    store as it was (and still completes). *)
Theorem install_static_all_or_nothing
    (net : string → Settled (option Response)) (base : string)
    (old_worker_in_use : bool) (w : World) (key : string) :
  Exists (λ u, outcome_ok (net (resolve_url base u)) = false) STATIC_ASSETS →
  Caches.match_in STATIC_ASSETS_CACHE key
    (storage (install_handler net base old_worker_in_use w).2)
  = Caches.match_in STATIC_ASSETS_CACHE key (storage w).
Proof.
  intros Hbad. rewrite install_handler_storage.
  unfold installed_storage, each_effect.
  rewrite (lookup_puts_unchanged net CDN_CACHE (λ u, u)) by (left; discriminate).
  rewrite match_in_open. unfold addAll_effect.
  rewrite (exists_not_ok net (resolve_url base) _ Hbad), andb_false_r.
  apply match_in_open.
Qed.

(** The CDN resources are stored one by one: a listed resource whose fetch
    gives an ok response that the cache accepts (not 206, no "Vary: *") is
    in the CDN store after installation whatever happens to the other
    resources and to the static assets; for a resource whose fetch fails,
    is not ok or is refused by the cache, the CDN store's entry is as
    before. *)
Theorem install_stores_each_cdn_resource
    (net : string → Settled (option Response)) (base : string)
    (old_worker_in_use : bool) (w : World) (resource : string) :
  resource ∈ CDN_RESOURCES →
  let after := storage (install_handler net base old_worker_in_use w).2 in
  (∀ r, net resource = Fulfilled (Some r) →
        response_ok r = true → put_accepts_response r = true →
     Caches.match_in CDN_CACHE resource after = Some r)
  ∧ (outcome_storable (net resource) = false →
     Caches.match_in CDN_CACHE resource after
     = Caches.match_in CDN_CACHE resource (storage w)).
Proof.
  intros Hin after. subst after. rewrite install_handler_storage.
  unfold installed_storage, each_effect. split.
  - intros r Hnet Hok Hr.
    apply (lookup_after_puts net CDN_CACHE (λ u, u));
      [apply get_open | done | done | by apply cdn_resources_http |].
    unfold addAll_accepts. by rewrite Hok, Hr.
  - intros Hbad.
    rewrite (lookup_puts_unchanged net CDN_CACHE (λ u, u))
      by (right; rewrite Hbad; apply andb_false_r).
    rewrite match_in_open. unfold addAll_effect.
    destruct (_ && _); [|apply match_in_open].
    rewrite (lookup_puts_unchanged net STATIC_ASSETS_CACHE (resolve_url base))
      by (left; discriminate).
    apply match_in_open.
Qed.

Lemma install_precaches_static_assets_witness :
  Caches.match_in STATIC_ASSETS_CACHE "https://zen.example/app/index.html"
    (storage (install_handler (net_ok "asset") "https://zen.example/app/" true
                (world_of Installing [])).2)
  = Some (sample_response "asset").
Proof.
  apply (install_precaches_static_assets (net_ok "asset") "https://zen.example/app/" true
           (world_of Installing []) "./index.html" (sample_response "asset")).
  - reflexivity.
  - repeat constructor.
  - right. left.
  - reflexivity.
Defined.

Lemma install_static_all_or_nothing_witness :
  Caches.match_in STATIC_ASSETS_CACHE "https://zen.example/app/index.html"
    (storage (install_handler
                (λ u, if String.eqb u "https://zen.example/app/icons/icon-512.svg"
                      then Fulfilled (Some not_found)
                      else Fulfilled (Some (sample_response "asset")))
                "https://zen.example/app/" true (world_of Installing [])).2)
  = None.
Proof.
  rewrite (install_static_all_or_nothing _ "https://zen.example/app/" true
             (world_of Installing []) "https://zen.example/app/index.html").
  - reflexivity.
  - do 4 right. left. reflexivity.
Defined.

Lemma install_stores_each_cdn_resource_witness :
  let net := λ u, if String.eqb u "https://cdn.tailwindcss.com"
                  then Fulfilled (Some (sample_response "tailwind"))
                  else Rejected "TypeError: Failed to fetch" in
  Caches.match_in CDN_CACHE "https://cdn.tailwindcss.com"
    (storage (install_handler net "https://zen.example/app/" true
                (world_of Installing [])).2)
  = Some (sample_response "tailwind").
Proof.
  intros net.
  destruct (install_stores_each_cdn_resource net "https://zen.example/app/" true
              (world_of Installing []) "https://cdn.tailwindcss.com") as [H _].
  - left.
  - apply H; reflexivity.
Defined.

(** ** Messages *)

Lemma delete_all_run (names : list string) (w : World) :
  ∃ l, Promise.all (caches_delete <$> names) w
       = (Fulfilled l,
          with_storage (λ cs, foldl (λ cs n, Caches.delete n cs) cs names) w).
Proof.
  revert w. induction names as [|n names IH]; intros w.
  - exists []. simpl. unfold Promise.resolve. by rewrite <- (with_storage_id w) at 1.
  - rewrite fmap_cons, all_cons. unfold caches_delete at 1.
    destruct (IH (with_storage (Caches.delete n) w)) as [l ->]. by eexists.
Qed.

Lemma delete_all_names (names : list string) (cs : CacheStorage) :
  (∀ p, p ∈ cs → p.1 ∈ names) →
  foldl (λ cs n, Caches.delete n cs) cs names = [].
Proof.
  revert cs. induction names as [|n names IH]; intros cs H; simpl.
  - destruct cs as [|p cs]; [done|].
    by pose proof (H p (list_elem_of_here _ _)) as ?%elem_of_nil.
  - apply IH. intros p [Hne Hp]%list_elem_of_filter.
    apply H in Hp. apply elem_of_cons in Hp as [?|?]; done.
Qed.

(** The CLEAR_CACHE message deletes every store, of whatever version or
    namespace, and leaves the lifecycle as it is.  When the event carries a
    port, the reply that reports success is posted to the first port.  When
    it carries none, posting throws, in [.then] and again in [.catch]: the
    stores are deleted all the same, no reply is posted, and the chain ends
    rejected. *)
Theorem clear_cache_deletes_every_store
    (old_worker_in_use : bool) (ports : list MessagePort) (w : World) :
  message_handler old_worker_in_use (Some (mkData "CLEAR_CACHE")) ports w
  = (match ports with
     | port :: _ => Fulfilled (Some (port, mkReply true (Some "Caches cleared") None))
     | [] => Rejected "TypeError"
     end,
     with_storage (λ _, []) w).
Proof.
  unfold message_handler. unfold Promise.then_ at 1.
  change (String.eqb (data_type (mkData "CLEAR_CACHE")) "SKIP_WAITING") with false.
  change (String.eqb (data_type (mkData "CLEAR_CACHE")) "CLEAR_CACHE") with true.
  unfold Promise.resolve at 1. unfold Promise.catch, Promise.then_, caches_keys.
  cbv beta iota.
  destruct (delete_all_run (Caches.keys (storage w)) w) as [l ->].
  assert (with_storage
            (λ cs, foldl (λ cs n, Caches.delete n cs) cs (Caches.keys (storage w))) w
          = with_storage (λ _, []) w) as ->.
  { destruct w as [cs ? ? ? ? ?]. unfold with_storage. simpl. f_equal.
    apply delete_all_names. intros p Hp. unfold Caches.keys.
    apply list_elem_of_fmap. by exists p. }
  by destruct ports.
Qed.

(** A message without data, or of a type other than SKIP_WAITING and
    CLEAR_CACHE, is ignored: no reply, no change. *)
Theorem other_messages_are_ignored
    (old_worker_in_use : bool) (data : option MessageData)
    (ports : list MessagePort) (w : World) :
  (∀ d, data = Some d →
        data_type d ≠ "SKIP_WAITING" ∧ data_type d ≠ "CLEAR_CACHE") →
  message_handler old_worker_in_use data ports w = (Fulfilled None, w).
Proof.
  intros H. unfold message_handler, Promise.then_.
  destruct data as [d|]; [|done].
  destruct (H d eq_refl) as [Hs Hc].
  apply eqb_false in Hs, Hc. by rewrite Hs, Hc.
Qed.

Lemma other_messages_are_ignored_witness :
  message_handler true None [] (world_of Active [(API_CACHE, ∅)])
  = (Fulfilled None, world_of Active [(API_CACHE, ∅)])
  ∧ message_handler true (Some (mkData "PING")) [mkPort 1] (world_of Active [(API_CACHE, ∅)])
    = (Fulfilled None, world_of Active [(API_CACHE, ∅)]).
Proof.
  split.
  - apply (other_messages_are_ignored true None []). intros d Hd. discriminate.
  - apply (other_messages_are_ignored true (Some (mkData "PING")) [mkPort 1]).
    intros d [= <-]. split; discriminate.
Defined.

(** ** From installation to the active worker *)

Lemma install_event_run
    (net : string → Settled (option Response)) (base : string)
    (old_worker_in_use : bool) (w : World) :
  phase w = Installing →
  ∃ w1, install_event net base old_worker_in_use w = with_phase Activating w1
      ∧ storage w1 = installed_storage net base (storage w).
Proof.
  intros Hphase.
  destruct (install_handler_run net base old_worker_in_use w) as (w0 & Hrun & Hlife).
  injection Hlife as Hp Hf. rewrite Hphase in Hp.
  assert (install_handler net base old_worker_in_use w
          = (Fulfilled (), with_skipWaitingFlag true w0)) as Hdone.
  { rewrite Hrun. unfold skipWaiting, try_activate. simpl. by rewrite Hp. }
  pose proof (install_handler_storage net base old_worker_in_use w) as Hs.
  rewrite Hdone in Hs. simpl in Hs.
  exists (with_skipWaitingFlag true w0). split; [|done].
  unfold install_event. rewrite Hdone. unfold try_activate. by simpl.
Qed.

Lemma activate_handler_run (w : World) :
  activate_handler w
  = (Fulfilled (),
     with_claimed true (with_storage (filter (λ p, is_stale p.1 = false)) w)).
Proof.
  pose proof (pruneStale_filter w) as Hf.
  unfold activate_handler, Promise.then_.
  destruct (pruneStale w) as [[l|e] w'] eqn:Hrun; simpl in Hf; subst w'; [done|].
  exfalso. revert Hrun. unfold pruneStale, Promise.then_, caches_keys.
  destruct (prune_all_run (Caches.keys (storage w)) w) as [l ->]. discriminate.
Qed.

Lemma keys_filter_not_stale (cs : CacheStorage) (name : string) :
  name ∈ Caches.keys (filter (λ p, is_stale p.1 = false) cs)
  ↔ is_stale name = false ∧ name ∈ Caches.keys cs.
Proof.
  unfold Caches.keys. rewrite !list_elem_of_fmap. split.
  - intros ([n c] & -> & [Hs Hin]%list_elem_of_filter). split; [done|]. by exists (n, c).
  - intros (Hs & [n c] & -> & Hin). exists (n, c). split; [done|].
    by apply list_elem_of_filter.
Qed.

(** A worker that starts installing is, after the install and the activate
    event, active and in control of the clients; the stores are those of
    the installation minus the stale ones, and the static and the CDN
    store of the current version are among them. *)
Theorem install_then_activate
    (net : string → Settled (option Response))
    (location_origin base : string) (old_worker_in_use : bool) (w : World) :
  phase w = Installing →
  let w2 := run net location_origin base old_worker_in_use [EvInstall; EvActivate] w in
  phase w2 = Active
  ∧ claimed w2 = true
  ∧ storage w2
    = filter (λ p, is_stale p.1 = false) (installed_storage net base (storage w))
  ∧ STATIC_ASSETS_CACHE ∈ Caches.keys (storage w2)
  ∧ CDN_CACHE ∈ Caches.keys (storage w2).
Proof.
  intros Hphase w2.
  destruct (install_event_run net base old_worker_in_use w Hphase) as (w1 & Hrun & Hs).
  assert (w2 = with_phase Active
                 (with_claimed true
                    (with_storage (filter (λ p, is_stale p.1 = false))
                       (with_phase Activating w1)))) as ->.
  { unfold w2, run. cbn [foldl]. unfold dispatch at 2.
    rewrite bool_decide_true by done. rewrite Hrun.
    unfold dispatch. rewrite bool_decide_true by done.
    unfold activate_event. by rewrite activate_handler_run. }
  simpl. rewrite Hs.
  split; [done|]. split; [done|]. split; [done|].
  rewrite !keys_filter_not_stale, keys_installed_storage, !keys_open_elem. auto.
Qed.

Lemma install_then_activate_witness :
  let w := world_of Installing [("zenflow-v0-static", ∅); ("other-app", ∅)] in
  Caches.keys
    (storage (run net_down "https://zen.example" "https://zen.example/" true
                [EvInstall; EvActivate] w))
  = ["other-app"; STATIC_ASSETS_CACHE; CDN_CACHE].
Proof.
  intros w.
  destruct (install_then_activate net_down "https://zen.example" "https://zen.example/"
              true w) as (_ & _ & -> & _); reflexivity.
Defined.

(** ** Fetch events *)

Lemma route_store (location_origin : string) (request : Request)
    (s : Strategy) (cacheName : string) :
  route location_origin request = Some (s, cacheName) →
  cacheName ∈ [STATIC_ASSETS_CACHE; API_CACHE; CDN_CACHE].
Proof.
  unfold route.
  destruct (negb _); [done|]. destruct (negb _ && negb _); [done|].
  destruct (is_api _); [intros [= <- <-]; right; left|].
  destruct (is_cdn _); [intros [= <- <-]; right; right; left|].
  destruct (String.eqb _ _);
    [destruct (is_static_asset _); [|destruct (is_document _)]|];
    intros [= <- <-]; left.
Qed.

(** Handling a fetch event never touches the lifecycle and changes no store
    while it runs; at most it leaves one write to complete, of a response
    with status 200 that the network gave for this request, under the
    request's key, into one of the three stores of the current version. *)
Theorem fetch_events_write_to_current_stores_only
    (net : string → Settled (option Response))
    (location_origin base : string) (old_worker_in_use : bool)
    (request : Request) (w : World) :
  let w' := dispatch net location_origin base old_worker_in_use (EvFetch request) w in
  storage w' = storage w
  ∧ lifecycle w' = lifecycle w
  ∧ claimed w' = claimed w
  ∧ (background w' = background w
     ∨ ∃ t, background w' = background w ++ [t]
          ∧ task_cache t ∈ [STATIC_ASSETS_CACHE; API_CACHE; CDN_CACHE]
          ∧ task_key t = RequestKey request
          ∧ net (RequestKey request) = Fulfilled (Some (task_response t))
          ∧ status (task_response t) = 200%Z).
Proof.
  cbv zeta. unfold dispatch, fetch_handler.
  destruct (route location_origin request) as [[s cacheName]|] eqn:Hroute; [|auto].
  apply route_store in Hroute.
  destruct (strategy_effect net base s request cacheName w)
    as [-> | [-> | (r & Hnet & Hs & ->)]]; [auto | auto |].
  repeat split. right. by exists (mkPut cacheName request r).
Qed.

(** ** Offline start *)

Lemma before_first (cs : CacheStorage) (name : string) (rest : list string) :
  Caches.keys cs = name :: rest → before name cs = [].
Proof.
  destruct cs as [|[n c] cs]; [done|]. simpl. intros [= -> _].
  by rewrite String.eqb_refl.
Qed.

Lemma filter_all {A} (P : A → Prop) `{!∀ x, Decision (P x)} (l : list A) :
  Forall P l → filter P l = l.
Proof.
  induction 1 as [|x l Hx _ IH]; [done|].
  by rewrite filter_cons_True, IH.
Qed.

(** On an origin without stores and for a worker served over http(s), once
    installation has fetched every static asset with a response that
    [cache.addAll] accepts (an ok status other than 206, no "Vary: *") and
    the worker is active, a navigation that finds the network down and no
    stored copy of its own is answered with the precached index.html, not
    with the 503 page. *)
Theorem offline_navigation_gets_precached_index
    (net net' : string → Settled (option Response))
    (location_origin base : string) (old_worker_in_use : bool)
    (w : World) (index : Response)
    (request : Request) (cacheName e : string) :
  phase w = Installing →
  storage w = [] →
  http_url base = true →
  Forall (λ u, outcome_storable (net (resolve_url base u)) = true) STATIC_ASSETS →
  net (resolve_url base "./index.html") = Fulfilled (Some index) →
  let w2 := run net location_origin base old_worker_in_use [EvInstall; EvActivate] w in
  destination request = "document" →
  net' (RequestKey request) = Rejected e →
  Caches.match_ (RequestKey request) (storage w2) = None →
  (networkFirstStrategy net' base request cacheName w2).1 = Fulfilled (Some index).
Proof.
  intros Hphase Hempty Hbase Hall Hindex w2 Hd Hdown Hmiss.
  destruct (install_event_run net base old_worker_in_use w Hphase) as (w1 & Hrun & Hs).
  assert (storage w2 = installed_storage net base []) as Hw2.
  { unfold w2, run. cbn [foldl]. unfold dispatch at 2.
    rewrite bool_decide_true by done. rewrite Hrun.
    unfold dispatch. rewrite bool_decide_true by done.
    unfold activate_event. rewrite activate_handler_run. simpl.
    rewrite Hs, Hempty. apply filter_all.
    apply Forall_forall. intros [n c] Hin.
    assert (n ∈ Caches.keys (installed_storage net base [])) as Hn.
    { unfold Caches.keys. apply list_elem_of_fmap. by exists (n, c). }
    rewrite keys_installed_storage in Hn. simpl.
    apply elem_of_cons in Hn as [->|Hn]; [done|].
    apply elem_of_cons in Hn as [->|Hn]; [done|]. by apply elem_of_nil in Hn. }
  rewrite networkFirst_run. cbv zeta. rewrite Hdown, Hmiss, Hd. simpl String.eqb.
  cbv iota. rewrite Hw2.
  rewrite (match_before _ STATIC_ASSETS_CACHE _ index).
  - done.
  - apply installed_storage_static; [done | done | right; left | done].
  - rewrite (before_first _ STATIC_ASSETS_CACHE [CDN_CACHE]); [done|].
    by rewrite keys_installed_storage.
Qed.

Lemma offline_navigation_gets_precached_index_witness :
  let w2 := run (net_ok "page") "https://zen.example" "https://zen.example/" true
              [EvInstall; EvActivate] (world_of Installing []) in
  (networkFirstStrategy net_down "https://zen.example/" (sample_request "/about" "document")
     STATIC_ASSETS_CACHE w2).1
  = Fulfilled (Some (sample_response "page")).
Proof.
  intros w2.
  apply (offline_navigation_gets_precached_index (net_ok "page") net_down
           "https://zen.example" "https://zen.example/" true (world_of Installing [])
           (sample_response "page") (sample_request "/about" "document")
           STATIC_ASSETS_CACHE "TypeError: Failed to fetch");
    try reflexivity.
  repeat constructor.
Defined.

(** ** Notification clicks *)

Lemma first_focusable_None (clientList : list Client) :
  first_focusable clientList = None ↔
  Forall (λ c, includes (client_url c) "./" && can_focus c = false) clientList.
Proof.
  induction clientList as [|c l IH]; simpl.
  - split; [constructor | done].
  - destruct (includes (client_url c) "./" && can_focus c) eqn:E.
    + split; [done|]. intros [H _]%Forall_cons. congruence.
    + rewrite IH. split; [by constructor | by intros [_ ?]%Forall_cons].
Qed.

Lemma first_focusable_app (earlier later : list Client) :
  Forall (λ c, includes (client_url c) "./" && can_focus c = false) earlier →
  first_focusable (earlier ++ later) = first_focusable later.
Proof.
  induction 1 as [|c l Hc _ IH]; [done|]. simpl. by rewrite Hc.
Qed.

Lemma first_focusable_Some (clientList : list Client) (c : Client) :
  first_focusable clientList = Some c →
  c ∈ clientList ∧ includes (client_url c) "./" = true ∧ can_focus c = true.
Proof.
  induction clientList as [|c' l IH]; simpl; [done|].
  destruct (includes (client_url c') "./" && can_focus c') eqn:E.
  - intros [= ->]. apply andb_prop in E as [? ?]. split; [left | done].
  - intros H. destruct (IH H) as (? & ? & ?). split; [by right | done].
Qed.

(** What a click on a notification does, in full.  The notification is
    always closed first.  For an action other than 'open' and none, that
    is all.  Otherwise: when some window client has a URL that contains
    "./" and can be focused, the first such client in the list is focused
    and no window is opened; when there is none, a window is opened at
    "./" if [clients.openWindow] exists, and nothing more happens if it
    does not. *)
Theorem notification_click_focuses_or_opens
    (action : string) (clientList : list Client) (openWindow : bool) :
  (action ≠ "open" → action ≠ "" →
     notificationclick action clientList openWindow = [CloseNotification])
  ∧ (action = "open" ∨ action = "" →
     (∀ earlier client later,
        clientList = earlier ++ client :: later →
        Forall (λ c, includes (client_url c) "./" && can_focus c = false) earlier →
        includes (client_url client) "./" = true →
        can_focus client = true →
        notificationclick action clientList openWindow
        = [CloseNotification; FocusClient client])
     ∧ (Forall (λ c, includes (client_url c) "./" && can_focus c = false) clientList →
        notificationclick action clientList openWindow
        = CloseNotification :: (if openWindow then [OpenWindow "./"] else []))).
Proof.
  unfold notificationclick. split.
  - intros Ho He. apply eqb_false in Ho, He. by rewrite Ho, He.
  - intros Hact.
    assert (String.eqb action "open" || String.eqb action "" = true) as ->.
    { destruct Hact as [-> | ->]; reflexivity. }
    split.
    + intros earlier client later -> Hearlier Hurl Hfocus.
      rewrite (first_focusable_app earlier (client :: later)) by done.
      simpl. by rewrite Hurl, Hfocus.
    + intros Hnone. apply first_focusable_None in Hnone. by rewrite Hnone.
Qed.

Lemma notification_click_focuses_or_opens_witness :
  notificationclick "open"
    [mkClient "https://zen.example/app/" true;
     mkClient "https://zen.example/./app" true;
     mkClient "https://zen.example/./other" true] true
  = [CloseNotification; FocusClient (mkClient "https://zen.example/./app" true)]
  ∧ notificationclick "close" [mkClient "https://zen.example/./app" true] true
    = [CloseNotification].
Proof.
  destruct (notification_click_focuses_or_opens "open"
              [mkClient "https://zen.example/app/" true;
               mkClient "https://zen.example/./app" true;
               mkClient "https://zen.example/./other" true] true) as [_ H].
  destruct (notification_click_focuses_or_opens "close"
              [mkClient "https://zen.example/./app" true] true) as [H' _].
  split.
  - destruct H as [H _]; [left; reflexivity|].
    apply (H [mkClient "https://zen.example/app/" true]
             (mkClient "https://zen.example/./app" true)
             [mkClient "https://zen.example/./other" true]);
      [reflexivity | repeat constructor | reflexivity | reflexivity].
  - apply H'; discriminate.
Defined.

Example click_with_open_app_window_opens_another :
  notificationclick "" [mkClient "https://zen.example/app/" true] true
  = [CloseNotification; OpenWindow "./"].
Proof. reflexivity. Qed.
